(** * pambu: the geometric core of a terminal snake game

    A shallow embedding of [pambu.py]: compass directions, grid points,
    line segments between two points, and the snake's polyline with its
    [move] and [detect_collision] routines.

    Conventions of the embedding.
    - Python integers are [Z]; coordinates are (y, x) with y growing
      downwards, as on a curses screen.
    - Python objects mutated in place ([Point.move], [LineSegment.increment],
      [LineSegment.decrement]) become functions returning the mutated value.
      A [LineSegment] built inside [Snake.move] wraps the very [Point]
      objects stored in [self.points]; the embedding therefore keeps the
      two positions a segment refers to, reads the segment out of the list
      there and writes both endpoints back after the mutation
      ([Snake.read] / [Snake.write]).  The points
      of a snake are pairwise distinct objects ([Snake.__init__] allocates
      two fresh points and the turn branch inserts a [copy.deepcopy]), so a
      list of values indexed by position describes the store exactly.
    - [curses.endwin(); print(...); sys.exit(0)] is the outcome [Exited],
      carrying the snake as it stands when the process ends; an
      out-of-range subscript is the outcome [IndexError]. *)

From stdpp Require Import base list numbers.

Local Open Scope Z_scope.

(** ** Direction *)

Module Direction.

Inductive t : Set := north | east | south | west.

#[global] Instance eq_dec : EqDecision t.
Proof. solve_decision. Defined.

Definition is_opp (self other : t) : bool :=
  (bool_decide (self = north) && bool_decide (other = south)) ||
  (bool_decide (self = south) && bool_decide (other = north)) ||
  (bool_decide (self = east) && bool_decide (other = west)) ||
  (bool_decide (self = west) && bool_decide (other = east)).

End Direction.

(** ** Point *)

Module Point.

Record t : Set := mk { y : Z; x : Z }.

#[global] Instance eq_dec : EqDecision t.
Proof. solve_decision. Defined.

(** [math.sqrt(dy**2 + dx**2)].  The source computes a float.  [Z.sqrt]
    is that float wherever the float arithmetic is exact: on two points
    of a common row or column whose radicand is below [2^53], where the
    radicand is a perfect square that converts to a float unchanged and
    the root is the integer span.  Outside that range the model is not
    the code: the float is rounded once the span exceeds [2^53], it is
    irrational off the axes, and the conversion of a radicand of about
    [2^1024] raises [OverflowError].  The properties below whose truth
    depends on the value, or on [length()] not raising, are stated for
    snakes [in_range].  The test [length() == 0] is exact whenever it
    does not raise (see [distance_from_zero]). *)
Definition distance_from (self other : t) : Z :=
  let dy := y other - y self in
  let dx := x other - x self in
  Z.sqrt (dy ^ 2 + dx ^ 2).

Definition has_same_y (self other : t) : bool := bool_decide (y self = y other).
Definition has_same_x (self other : t) : bool := bool_decide (x self = x other).

Definition is_to_the_left_of (self other : t) : bool := bool_decide (x self <= x other).
Definition is_to_the_right_of (self other : t) : bool := bool_decide (x self >= x other).
Definition is_above (self other : t) : bool := bool_decide (y self <= y other).
Definition is_below (self other : t) : bool := bool_decide (y self >= y other).

(** Move 1 unit in the given direction (the mutated point is returned). *)
Definition move (self : t) (direction : Direction.t) : t :=
  match direction with
  | Direction.north => mk (y self - 1) (x self)
  | Direction.west => mk (y self) (x self - 1)
  | Direction.south => mk (y self + 1) (x self)
  | Direction.east => mk (y self) (x self + 1)
  end.

End Point.

(** ** The display surface

    Only [window.addch(y, x, ch)] with one of the four corner glyphs is
    needed here; a call is recorded as a value. *)

Inductive Glyph : Set := ACS_ULCORNER | ACS_LLCORNER | ACS_URCORNER | ACS_LRCORNER.

Record AddCh : Set := addch { at_y : Z; at_x : Z; glyph : Glyph }.

(** A call made on the window by [draw]: [window.vline(y, x, 0, n)],
    [window.hline(y, x, 0, n)] (the glyph argument [0] asks for the
    default line glyph) or [window.addch]. *)
Inductive WindowCall : Set :=
| Vline (y x n : Z)
| Hline (y x n : Z)
| Addch (c : AddCh).

(** Python truthiness of a value that is [True], [False] or [None]. *)
Definition truthy (v : option bool) : bool :=
  match v with Some b => b | None => false end.

(** ** LineSegment *)

Module LineSegment.

Record t : Set := mk { head : Point.t; tail : Point.t }.

#[global] Instance eq_dec : EqDecision t.
Proof. solve_decision. Defined.

Definition length (self : t) : Z := Point.distance_from (head self) (tail self).

Definition is_vertical (self : t) : bool := Point.has_same_x (head self) (tail self).
Definition is_horizontal (self : t) : bool := Point.has_same_y (head self) (tail self).

(** Increase the line segment length by 1 from the head. *)
Definition increment (self : t) : t :=
  if is_horizontal self then
    if bool_decide (Point.x (head self) < Point.x (tail self))
    then mk (Point.move (head self) Direction.west) (tail self)
    else mk (Point.move (head self) Direction.east) (tail self)
  else if is_vertical self then
    if bool_decide (Point.y (head self) < Point.y (tail self))
    then mk (Point.move (head self) Direction.north) (tail self)
    else mk (Point.move (head self) Direction.south) (tail self)
  else self.

(** Decrease the line segment length by 1 from the tail. *)
Definition decrement (self : t) : t :=
  if is_horizontal self then
    if bool_decide (Point.x (head self) < Point.x (tail self))
    then mk (head self) (Point.move (tail self) Direction.west)
    else mk (head self) (Point.move (tail self) Direction.east)
  else if is_vertical self then
    if bool_decide (Point.y (head self) < Point.y (tail self))
    then mk (head self) (Point.move (tail self) Direction.north)
    else mk (head self) (Point.move (tail self) Direction.south)
  else self.

(** Draw the line if it is horizontal or vertical.  The result is the
    call made on the window, if any.  [math.floor(self.length())] is the
    length itself where the float is exact (see [Point.distance_from]);
    the source computes it before it looks at the orientation, so beyond
    that range it passes a rounded count or raises [OverflowError], also
    on a segment it would not draw.  The properties of [draw] are stated
    for segments in range. *)
Definition draw (self : t) : option WindowCall :=
  let length := length self in
  let start_point :=
    Point.mk (Z.min (Point.y (head self)) (Point.y (tail self)))
             (Z.min (Point.x (head self)) (Point.x (tail self))) in
  if is_vertical self
  then Some (Vline (Point.y start_point) (Point.x start_point) length)
  else if is_horizontal self
  then Some (Hline (Point.y start_point) (Point.x start_point) length)
  else None.

(** [lies_on] falls off the end, i.e. returns [None], on a segment that is
    neither horizontal nor vertical. *)
Definition lies_on (self : t) (point : Point.t) : option bool :=
  if is_horizontal self then
    Some (bool_decide (Point.x point <= Z.max (Point.x (head self)) (Point.x (tail self)))
          && bool_decide (Point.x point >= Z.min (Point.x (head self)) (Point.x (tail self)))
          && bool_decide (Point.y point = Point.y (head self)))
  else if is_vertical self then
    Some (bool_decide (Point.y point <= Z.max (Point.y (head self)) (Point.y (tail self)))
          && bool_decide (Point.y point >= Z.min (Point.y (head self)) (Point.y (tail self)))
          && bool_decide (Point.x point = Point.x (head self)))
  else None.

Definition intersection_point (self other : t) : option Point.t :=
  if bool_decide (head self = head other) || bool_decide (head self = tail other)
  then Some (head self)
  else if bool_decide (tail self = head other) || bool_decide (tail self = tail other)
  then Some (tail self)
  else None.

(** The nested helper of [join]; [ipoint] is its free variable. *)
Definition join_char (ipoint : Point.t) (hline vline : t) : option Glyph :=
  if Point.is_to_the_left_of ipoint (head hline) &&
     Point.is_to_the_left_of ipoint (tail hline) then
    if Point.is_above ipoint (head vline) && Point.is_above ipoint (tail vline)
    then Some ACS_ULCORNER
    else if Point.is_below ipoint (head vline) && Point.is_below ipoint (tail vline)
    then Some ACS_LLCORNER
    else None
  else if Point.is_to_the_right_of ipoint (head hline) &&
          Point.is_to_the_right_of ipoint (tail hline) then
    if Point.is_above ipoint (head vline) && Point.is_above ipoint (tail vline)
    then Some ACS_URCORNER
    else if Point.is_below ipoint (head vline) && Point.is_below ipoint (tail vline)
    then Some ACS_LRCORNER
    else None
  else None.

(** [join(other, window)]: [other] is a [LineSegment] or [None] (the first
    segment drawn has no predecessor).  The result is the [window.addch]
    call performed, if any. *)
Definition join (self : t) (other : option t) : option AddCh :=
  match other with
  | None => None
  | Some other =>
      let hline : option t := None in
      let vline : option t := None in
      let '(hline, vline) :=
        if is_vertical self then (hline, Some self)
        else if is_horizontal self then (Some self, vline)
        else (hline, vline) in
      let '(hline, vline) :=
        if is_vertical other then (hline, Some other)
        else if is_horizontal other then (Some other, vline)
        else (hline, vline) in
      match hline, vline with
      | Some hline, Some vline =>
          if bool_decide (hline <> vline) then
            match intersection_point hline vline with
            | Some ipoint =>
                match join_char ipoint hline vline with
                | Some ch => Some (addch (Point.y ipoint) (Point.x ipoint) ch)
                | None => None
                end
            | None => None
            end
          else None
      | _, _ => None
      end
  end.

End LineSegment.

(** ** Snake *)

Module Snake.

Record t : Set := mk { points : list Point.t; direction : Direction.t }.

(** How a call ends: it returns (with the mutated snake), the process
    exits from inside [detect_collision], or a subscript is out of range.
    The [OverflowError] of [length()] on astronomic coordinates and the
    [curses.error] of a window call are not among the outcomes: the
    properties that say how a call ends are stated for snakes in range,
    or for the calls that return. *)
Inductive outcome : Set :=
| Returned (self : t)
| Exited (self : t)
| IndexError.

(** A Python subscript [l[i]], negative indices counting from the end,
    resolved to a position of the list. *)
Definition subscript (l : list Point.t) (i : Z) : option nat :=
  let n := Z.of_nat (length l) in
  if bool_decide (0 <= i < n) then Some (Z.to_nat i)
  else if bool_decide (- n <= i < 0) then Some (Z.to_nat (n + i))
  else None.

(** A [LineSegment] whose endpoints are objects stored in the list: the
    two positions it refers to. *)
Record segment_ref : Set := refer { head_at : nat; tail_at : nat }.

(** [LineSegment(points[i], points[j])]. *)
Definition segment_at (l : list Point.t) (i j : Z) : option segment_ref :=
  match subscript l i, subscript l j with
  | Some a, Some b => Some (refer a b)
  | _, _ => None
  end.

Definition read (l : list Point.t) (r : segment_ref) : option LineSegment.t :=
  match l !! head_at r, l !! tail_at r with
  | Some p, Some q => Some (LineSegment.mk p q)
  | _, _ => None
  end.

Definition write (l : list Point.t) (r : segment_ref) (seg : LineSegment.t) : list Point.t :=
  <[tail_at r := LineSegment.tail seg]> (<[head_at r := LineSegment.head seg]> l).

(** A method of [LineSegment] that mutates its endpoints, run on a
    segment of stored points. *)
Definition mutate (f : LineSegment.t -> LineSegment.t) (l : list Point.t) (r : segment_ref)
  : list Point.t :=
  match read l r with
  | Some seg => write l r (f seg)
  | None => l
  end.

(** [points.insert(0, _)] moves every stored object one position up. *)
Definition shifted (r : segment_ref) : segment_ref :=
  refer (S (head_at r)) (S (tail_at r)).

(** [zip(points[:-1], points[1:])], the consecutive pairs walked by [draw]. *)
Definition segments (l : list Point.t) : list (Point.t * Point.t) :=
  zip (take (length l - 1)%nat l) (drop 1 l).

(** [zip(points[1:-1], points[2:])], the pairs walked by [detect_collision]. *)
Definition body_segments (l : list Point.t) : list (Point.t * Point.t) :=
  zip (drop 1 (take (length l - 1)%nat l)) (drop 2 l).

(** The loop of [draw], [prev_seg] being carried from one round to the
    next; the result is the sequence of calls made on the window. *)
Fixpoint draw_loop (prev_seg : option LineSegment.t)
    (pairs : list (Point.t * Point.t)) : list WindowCall :=
  match pairs with
  | [] => []
  | (prev_point, curr_point) :: pairs =>
      let curr_seg := LineSegment.mk prev_point curr_point in
      option_list (LineSegment.draw curr_seg)
      ++ option_list (Addch <$> LineSegment.join curr_seg prev_seg)
      ++ draw_loop (Some curr_seg) pairs
  end.

Definition draw (self : t) : list WindowCall :=
  draw_loop None (segments (points self)).

Definition hits (head : Point.t) (pair : Point.t * Point.t) : bool :=
  let '(prev_point, curr_point) := pair in
  let curr_seg := LineSegment.mk prev_point curr_point in
  truthy (LineSegment.lies_on curr_seg head).

Definition detect_collision (self : t) : outcome :=
  match points self !! 0%nat with
  | None => IndexError
  | Some head =>
      if existsb (hits head) (body_segments (points self))
      then Exited self
      else Returned self
  end.

(** The condition of the first branch of [move]. *)
Definition keeps_course (self : t) (direction : option Direction.t) : bool :=
  match direction with
  | None => true
  | Some d =>
      bool_decide (d = Snake.direction self) || Direction.is_opp d (Snake.direction self)
  end.

(** Lines 231-242 of [move]: both segments are built, then the head is
    extended in place or a new head is prepended and the direction
    updated.  The result is the snake together with [last_seg]. *)
Definition advance_head (self : t) (direction : option Direction.t)
  : option (t * segment_ref) :=
  match segment_at (points self) 0 1, segment_at (points self) (-2) (-1) with
  | Some first_seg, Some last_seg =>
      match direction with
      | Some d =>
          if keeps_course self direction
          then Some (mk (mutate LineSegment.increment (points self) first_seg)
                        (Snake.direction self), last_seg)
          else
            match points self !! head_at first_seg with
            | Some head =>
                let new_head := Point.move head d in
                Some (mk (new_head :: points self) d, shifted last_seg)
            | None => None
            end
      | None =>
          Some (mk (mutate LineSegment.increment (points self) first_seg)
                   (Snake.direction self), last_seg)
      end
  | _, _ => None
  end.

(** Lines 244-246 of [move].  [last_seg.length() == 0] is the test
    whether the two ends are equal, provided [length()] does not raise
    (see [Point.distance_from]). *)
Definition shrink_tail (self : t) (last_seg : segment_ref) : outcome :=
  let l := mutate LineSegment.decrement (points self) last_seg in
  match read l last_seg with
  | Some seg =>
      if bool_decide (LineSegment.length seg = 0)
      then Returned (mk (take (length l - 1)%nat l) (Snake.direction self))
      else Returned (mk l (Snake.direction self))
  | None => IndexError
  end.

Definition move (self : t) (direction : option Direction.t) : outcome :=
  match advance_head self direction with
  | None => IndexError
  | Some (self, last_seg) =>
      match detect_collision self with
      | Returned self => shrink_tail self last_seg
      | halted => halted
      end
  end.

(** Total body length: the sum of the segment lengths over consecutive
    point pairs. *)
Definition pair_length (pair : Point.t * Point.t) : Z :=
  LineSegment.length (LineSegment.mk (fst pair) (snd pair)).

Definition path_length (l : list Point.t) : Z :=
  foldr Z.add 0 (map pair_length (segments l)).

Definition total_length (self : t) : Z := path_length (points self).

(** The structural invariant: at least two points, every consecutive pair
    axis-aligned, and no segment of length zero. *)
Definition axis_aligned (seg : LineSegment.t) : bool :=
  LineSegment.is_horizontal seg || LineSegment.is_vertical seg.

Definition sound_pair (pair : Point.t * Point.t) : bool :=
  let seg := LineSegment.mk (fst pair) (snd pair) in
  axis_aligned seg && negb (bool_decide (LineSegment.length seg = 0)).

Definition sound_path (l : list Point.t) : bool :=
  forallb sound_pair (segments l).

Definition well_formed (self : t) : bool :=
  bool_decide (2 <= length (points self))%nat && sound_path (points self).

End Snake.

(** ** The frame loop of [main] *)

(** What [stdscr.getch()] returns, as far as the loop tells values apart;
    [other_key] stands for every other value, [-1] (no input) included. *)
Inductive Key : Set := KEY_UP | KEY_DOWN | KEY_LEFT | KEY_RIGHT | ESC | other_key.

#[global] Instance Key_eq_dec : EqDecision Key.
Proof. solve_decision. Defined.

(** Lines 271-279; [ch] is [None] before the first [getch]. *)
Definition key_direction (ch : option Key) : option Direction.t :=
  match ch with
  | Some KEY_UP => Some Direction.north
  | Some KEY_DOWN => Some Direction.south
  | Some KEY_LEFT => Some Direction.west
  | Some KEY_RIGHT => Some Direction.east
  | _ => None
  end.

(** The [while] loop of [main] as far as the snake goes, run on the
    values the successive calls of [getch] return.  Drawing, refreshing
    and sleeping leave the snake alone; [snk.draw(stdscr)] can end the
    program with a [curses.error] (a window call outside the window),
    and [frame_loop] follows the run for as long as no drawing does.  The
    loop returns on [ESC]; when the given values run out the snake
    reached so far is returned. *)
Fixpoint frame_loop (snk : Snake.t) (ch : option Key) (getch : list Key)
  : Snake.outcome :=
  if bool_decide (ch = Some ESC) then Snake.Returned snk
  else
    match Snake.move snk (key_direction ch) with
    | Snake.Returned snk =>
        match getch with
        | [] => Snake.Returned snk
        | ch :: getch => frame_loop snk (Some ch) getch
        end
    | halted => halted
    end.

(** How a run of the loop ends when drawing is followed too: as
    [frame_loop] says, or with the [curses.error] that
    [snk.draw(stdscr)] raised, and the snake it was drawing. *)
Inductive run : Type :=
  | Ended (outcome : Snake.outcome)
  | CursesError (snk : Snake.t).

(** The [while] loop of [main] with its drawing.  Whether
    [snk.draw(stdscr)] returns is for curses to say (it raises
    [curses.error] on a call that starts outside the window, whose size
    the program reads once, at line 266, and never compares with the
    snake), so a frame is given as the pair of whether the drawing of
    that frame returned and of the value [getch] returned after it.  As
    in [frame_loop], when the frames given run out the snake reached so
    far is returned. *)
Fixpoint frame_loop_drawn (snk : Snake.t) (ch : option Key)
    (frames : list (bool * Key)) : run :=
  if bool_decide (ch = Some ESC) then Ended (Snake.Returned snk)
  else
    match Snake.move snk (key_direction ch) with
    | Snake.Returned snk =>
        match frames with
        | [] => Ended (Snake.Returned snk)
        | (drawn, ch) :: frames =>
            if drawn then frame_loop_drawn snk (Some ch) frames
            else CursesError snk
        end
    | halted => Ended halted
    end.

(** ** Specification vocabulary and sample data *)

(** [p] is straight ahead of [q] in direction [d]: on the same row or
    column, at least one unit further. *)
Definition faces (d : Direction.t) (p q : Point.t) : bool :=
  match d with
  | Direction.north => bool_decide (Point.x p = Point.x q) && bool_decide (Point.y p < Point.y q)
  | Direction.south => bool_decide (Point.x p = Point.x q) && bool_decide (Point.y q < Point.y p)
  | Direction.east => bool_decide (Point.y p = Point.y q) && bool_decide (Point.x q < Point.x p)
  | Direction.west => bool_decide (Point.y p = Point.y q) && bool_decide (Point.x p < Point.x q)
  end.


(** The direction a snake heads in after a move that requested
    [direction]. *)
Definition course_after (self : Snake.t) (direction : option Direction.t)
  : Direction.t :=
  match direction with
  | Some d => if Snake.keeps_course self direction then Snake.direction self else d
  | None => Snake.direction self
  end.

(** How many places the points move up in the list in a move: one on a
    turn, where a new head is put in front. *)
Definition shift_of (self : Snake.t) (direction : option Direction.t) : nat :=
  if Snake.keeps_course self direction then 0%nat else 1%nat.






(** Coordinates for which the float arithmetic of [length()] is exact,
    also one step further: spans stay below [2^26] and radicands below
    [2^53]. *)
Definition coordinate_limit : Z := 2 ^ 24.

Definition point_in_range (limit : Z) (p : Point.t) : bool :=
  bool_decide (Z.abs (Point.y p) <= limit)
  && bool_decide (Z.abs (Point.x p) <= limit).

Definition segment_in_range (seg : LineSegment.t) : bool :=
  point_in_range coordinate_limit (LineSegment.head seg)
  && point_in_range coordinate_limit (LineSegment.tail seg).

(** A snake whose lengths, and their sum, the float arithmetic of the
    source computes exactly, before and after [ticks] moves. *)
Definition in_range_for (ticks : nat) (self : Snake.t) : bool :=
  forallb (point_in_range (coordinate_limit - Z.of_nat ticks)) (Snake.points self)
  && bool_decide (Snake.total_length self < 2 ^ 52).

Definition in_range (self : Snake.t) : bool := in_range_for 0 self.

(** The points are at most one step out of range, as they are after a
    move of a snake in range: the lengths are still computed exactly. *)
Definition lengths_exact (self : Snake.t) : bool :=
  forallb (point_in_range (coordinate_limit + 1)) (Snake.points self).

(** The invariant with only the tail segment required to have a length:
    at least two points, every consecutive pair on a common row or
    column, and a last segment of non-zero length. *)
Definition tail_invariant (self : Snake.t) : bool :=
  bool_decide (2 <= length (Snake.points self))%nat
  && forallb (fun pair => Snake.axis_aligned (LineSegment.mk pair.1 pair.2))
       (Snake.segments (Snake.points self))
  && match Snake.segments (Snake.points self)
           !! (length (Snake.points self) - 2)%nat with
     | Some (a, b) =>
         negb (bool_decide (LineSegment.length (LineSegment.mk a b) = 0))
     | None => false
     end.

(** The corner glyph at a point from which a horizontal segment runs
    [dx] columns and a vertical one [dy] rows. *)
Definition corner (dy dx : Z) : Glyph :=
  if bool_decide (0 < dx)
  then if bool_decide (0 < dy) then ACS_ULCORNER else ACS_LLCORNER
  else if bool_decide (0 < dy) then ACS_URCORNER else ACS_LRCORNER.



(** A point of the bounding box of two points; when the two are on a
    common row or column this is a point of the segment between them. *)
Definition within (a b p : Point.t) : Prop :=
  (Z.min (Point.y a) (Point.y b) <= Point.y p <= Z.max (Point.y a) (Point.y b))
  /\ (Z.min (Point.x a) (Point.x b) <= Point.x p <= Z.max (Point.x a) (Point.x b)).

(** The head is related by [on] to the points at positions [i] and
    [i + 1], for some [i >= 1]. *)
Definition head_meets (on : Point.t -> Point.t -> Point.t -> Prop) (s : Snake.t) : Prop :=
  exists head (i : nat) a b,
    Snake.points s !! 0%nat = Some head
    /\ (1 <= i)%nat
    /\ Snake.points s !! i = Some a
    /\ Snake.points s !! S i = Some b
    /\ on a b head.

(** The head lies on a body segment, in the sense of [lies_on]. *)
Definition head_on_body : Snake.t -> Prop :=
  head_meets (fun a b head =>
                truthy (LineSegment.lies_on (LineSegment.mk a b) head) = true).

(** The head is a point of a body segment. *)
Definition head_within_body : Snake.t -> Prop := head_meets within.

Definition pt (y x : Z) : Point.t := Point.mk y x.

(** The snake of the end-to-end scenario, and the states that follow. *)
Definition scenario_start : Snake.t :=
  Snake.mk [pt 10 20; pt 10 10] Direction.east.
Definition scenario_east : Snake.t :=
  Snake.mk [pt 10 21; pt 10 11] Direction.east.
Definition scenario_north : Snake.t :=
  Snake.mk [pt 9 21; pt 10 21; pt 10 12] Direction.north.

(** A snake coiled so that one step north puts its head on the cell that
    holds the end of its tail. *)
Definition coiled : Snake.t :=
  Snake.mk [pt 1 0; pt 2 0; pt 2 3; pt 0 3; pt 0 0] Direction.north.

(** The two segments of the join example, each with its endpoints in
    either order. *)
Definition hseg : LineSegment.t := LineSegment.mk (pt 5 2) (pt 5 8).
Definition hseg' : LineSegment.t := LineSegment.mk (pt 5 8) (pt 5 2).
Definition vseg : LineSegment.t := LineSegment.mk (pt 5 2) (pt 1 2).
Definition vseg' : LineSegment.t := LineSegment.mk (pt 1 2) (pt 5 2).

(** * Properties *)

(** ** Geometry of points and segments *)

Section Geometry.

Implicit Types (p q : Point.t) (seg : LineSegment.t).

Lemma sqrt_sum_squares_zero (a b : Z) : Z.sqrt (a ^ 2 + b ^ 2) = 0 <-> a = 0 /\ b = 0.
Proof.
  split.
  - intros H.
    assert (Hle : a ^ 2 + b ^ 2 <= 0).
    { destruct (Z.le_gt_cases (a ^ 2 + b ^ 2) 0) as [|Hpos]; [done|].
      apply Z.sqrt_pos in Hpos. lia. }
    nia.
  - intros [-> ->]. reflexivity.
Qed.

Lemma distance_from_zero p q : Point.distance_from p q = 0 <-> p = q.
Proof.
  unfold Point.distance_from. rewrite sqrt_sum_squares_zero.
  destruct p as [py px], q as [qy qx]; simpl. split.
  - intros [Hy Hx]. f_equal; lia.
  - intros [= -> ->]. lia.
Qed.

Lemma sqrt_square_abs (d : Z) : Z.sqrt (0 ^ 2 + d ^ 2) = Z.abs d.
Proof.
  replace (0 ^ 2 + d ^ 2) with (Z.abs d * Z.abs d) by lia.
  apply Z.sqrt_square. lia.
Qed.

Lemma sqrt_square_abs' (d : Z) : Z.sqrt (d ^ 2 + 0 ^ 2) = Z.abs d.
Proof. rewrite Z.add_comm. apply sqrt_square_abs. Qed.

Lemma length_horizontal seg :
  LineSegment.is_horizontal seg = true ->
  LineSegment.length seg
  = Z.abs (Point.x (LineSegment.tail seg) - Point.x (LineSegment.head seg)).
Proof.
  unfold LineSegment.is_horizontal, Point.has_same_y, LineSegment.length,
    Point.distance_from.
  intros H%bool_decide_eq_true. rewrite H, Z.sub_diag. apply sqrt_square_abs.
Qed.

Lemma length_vertical seg :
  LineSegment.is_vertical seg = true ->
  LineSegment.length seg
  = Z.abs (Point.y (LineSegment.tail seg) - Point.y (LineSegment.head seg)).
Proof.
  unfold LineSegment.is_vertical, Point.has_same_x, LineSegment.length,
    Point.distance_from.
  intros H%bool_decide_eq_true. rewrite H, Z.sub_diag. apply sqrt_square_abs'.
Qed.

Lemma length_nonneg seg : 0 <= LineSegment.length seg.
Proof. apply Z.sqrt_nonneg. Qed.

(** Case analysis on the orientation tests of a segment, with the
    comparisons turned into arithmetic facts. *)
Ltac orient seg :=
  destruct seg as [[hy hx] [ty tx]];
  unfold Snake.axis_aligned, LineSegment.increment, LineSegment.decrement,
    LineSegment.is_horizontal, LineSegment.is_vertical,
    Point.has_same_y, Point.has_same_x in *;
  simpl in *;
  repeat case_bool_decide; simpl in *; try done.

Ltac span :=
  first [ rewrite !length_horizontal by (apply bool_decide_eq_true; simpl; lia)
        | rewrite !length_vertical by (apply bool_decide_eq_true; simpl; lia) ];
  simpl; lia.

Lemma increment_tail seg :
  LineSegment.tail (LineSegment.increment seg) = LineSegment.tail seg.
Proof. orient seg. Qed.

Lemma decrement_head seg :
  LineSegment.head (LineSegment.decrement seg) = LineSegment.head seg.
Proof. orient seg. Qed.

Lemma increment_axis_aligned seg :
  Snake.axis_aligned seg = true ->
  Snake.axis_aligned (LineSegment.increment seg) = true.
Proof. orient seg. Qed.

Lemma decrement_axis_aligned seg :
  Snake.axis_aligned seg = true ->
  Snake.axis_aligned (LineSegment.decrement seg) = true.
Proof. orient seg. Qed.

Lemma increment_length seg :
  Snake.axis_aligned seg = true ->
  LineSegment.length seg <> 0 ->
  LineSegment.length (LineSegment.increment seg) = LineSegment.length seg + 1.
Proof.
  intros Ha Hl.
  assert (Hne : LineSegment.head seg <> LineSegment.tail seg).
  { intros E. apply Hl. by apply distance_from_zero. }
  orient seg; try span.
Qed.

Lemma decrement_length seg :
  Snake.axis_aligned seg = true ->
  LineSegment.length seg <> 0 ->
  LineSegment.length (LineSegment.decrement seg) = LineSegment.length seg - 1.
Proof.
  intros Ha Hl.
  assert (Hne : LineSegment.head seg <> LineSegment.tail seg).
  { intros E. apply Hl. by apply distance_from_zero. }
  orient seg; try congruence; span.
Qed.

(** On an axis-aligned segment [lies_on] is membership in the bounding
    box, which for such a segment is the segment itself. *)
Lemma lies_on_axis_aligned seg p :
  Snake.axis_aligned seg = true ->
  truthy (LineSegment.lies_on seg p) = true <->
  Z.min (Point.y (LineSegment.head seg)) (Point.y (LineSegment.tail seg)) <= Point.y p
    <= Z.max (Point.y (LineSegment.head seg)) (Point.y (LineSegment.tail seg)) /\
  Z.min (Point.x (LineSegment.head seg)) (Point.x (LineSegment.tail seg)) <= Point.x p
    <= Z.max (Point.x (LineSegment.head seg)) (Point.x (LineSegment.tail seg)).
Proof.
  intros Ha. destruct p as [py px]. unfold LineSegment.lies_on.
  orient seg; subst; rewrite ?andb_true_iff, ?andb_false_iff; lia.
Qed.

(** The segment from a point moved one step back to the point itself. *)
Lemma step_segment p (d : Direction.t) :
  Snake.axis_aligned (LineSegment.mk (Point.move p d) p) = true
  /\ LineSegment.length (LineSegment.mk (Point.move p d) p) = 1.
Proof.
  destruct p as [py px].
  destruct d; (split; [|span]); unfold Snake.axis_aligned,
    LineSegment.is_horizontal, LineSegment.is_vertical,
    Point.has_same_y, Point.has_same_x; simpl;
    repeat case_bool_decide; simpl; try done; lia.
Qed.

End Geometry.

(** ** The point list: consecutive pairs and stored segments *)

Section PointList.

Implicit Types (p q a b : Point.t) (l pre : list Point.t) (seg : LineSegment.t).

Lemma segments_cons a b l :
  Snake.segments (a :: b :: l) = (a, b) :: Snake.segments (b :: l).
Proof.
  unfold Snake.segments. simpl. by rewrite Nat.sub_0_r.
Qed.

Lemma segments_single a : Snake.segments [a] = [].
Proof. reflexivity. Qed.

Lemma segments_snoc pre a b :
  Snake.segments (pre ++ [a; b]) = Snake.segments (pre ++ [a]) ++ [(a, b)].
Proof.
  induction pre as [|p pre IH]; [reflexivity|].
  destruct pre as [|q pre].
  - reflexivity.
  - change ((p :: q :: pre) ++ [a; b]) with (p :: q :: (pre ++ [a; b])).
    change ((p :: q :: pre) ++ [a]) with (p :: q :: (pre ++ [a])).
    rewrite !segments_cons. simpl. f_equal. apply IH.
Qed.

Lemma body_segments_cons a l : Snake.body_segments (a :: l) = Snake.segments l.
Proof.
  unfold Snake.body_segments, Snake.segments.
  destruct l as [|b l]; [reflexivity|]. simpl. by rewrite Nat.sub_0_r.
Qed.

Lemma segments_length l : length (Snake.segments l) = (length l - 1)%nat.
Proof.
  unfold Snake.segments. rewrite length_zip_with, length_take, length_drop. lia.
Qed.

(** The pair at position [i] of [segments] is (points[i], points[i+1]). *)
Lemma segments_lookup l (i : nat) a b :
  Snake.segments l !! i = Some (a, b) <-> l !! i = Some a /\ l !! S i = Some b.
Proof.
  revert i. induction l as [|p l IH]; intros i.
  - split; [done | by intros [? ?]].
  - destruct l as [|q l].
    + rewrite segments_single. split; [done|]. by intros [_ ?].
    + rewrite segments_cons. destruct i as [|i]; simpl.
      * split; [by intros [= -> ->] | by intros [[= ->] [= ->]]].
      * apply IH.
Qed.

Lemma last_two l :
  (2 <= length l)%nat -> exists pre a b, l = pre ++ [a; b].
Proof.
  intros Hl.
  destruct (decide (l = [])) as [->|Hne]; [simpl in Hl; lia|].
  destruct (exists_last Hne) as (l' & b & ->).
  destruct (decide (l' = [])) as [->|Hne']; [simpl in Hl; lia|].
  destruct (exists_last Hne') as (pre & a & ->).
  exists pre, a, b. by rewrite <- app_assoc.
Qed.

Lemma subscript_first p l : Snake.subscript (p :: l) 0 = Some 0%nat.
Proof.
  unfold Snake.subscript. rewrite bool_decide_eq_true_2; [done|].
  simpl length. lia.
Qed.

Lemma subscript_second p q l : Snake.subscript (p :: q :: l) 1 = Some 1%nat.
Proof.
  unfold Snake.subscript. rewrite bool_decide_eq_true_2; [done|].
  simpl length. lia.
Qed.

Lemma subscript_back l (i : Z) :
  - Z.of_nat (length l) <= i < 0 ->
  Snake.subscript l i = Some (Z.to_nat (Z.of_nat (length l) + i)).
Proof.
  intros Hi. unfold Snake.subscript.
  rewrite bool_decide_eq_false_2 by lia.
  by rewrite bool_decide_eq_true_2 by lia.
Qed.

(** With fewer than two points the first segment cannot be built. *)
Lemma segment_at_first_short l :
  (length l < 2)%nat -> Snake.segment_at l 0 1 = None.
Proof.
  intros Hl. unfold Snake.segment_at, Snake.subscript.
  destruct l as [|p [|q l]]; simpl in *; try lia; reflexivity.
Qed.

Lemma segment_at_first p q l :
  Snake.segment_at (p :: q :: l) 0 1 = Some (Snake.refer 0 1).
Proof.
  unfold Snake.segment_at. by rewrite subscript_first, subscript_second.
Qed.

Lemma segment_at_last l :
  (2 <= length l)%nat ->
  Snake.segment_at l (-2) (-1)
  = Some (Snake.refer (length l - 2) (length l - 1)).
Proof.
  intros Hl. unfold Snake.segment_at.
  rewrite (subscript_back l (-2)), (subscript_back l (-1)) by lia.
  do 2 f_equal; lia.
Qed.

Lemma read_snoc pre a b :
  Snake.read (pre ++ [a; b]) (Snake.refer (length pre) (S (length pre)))
  = Some (LineSegment.mk a b).
Proof.
  unfold Snake.read. simpl.
  rewrite list_lookup_middle by done.
  rewrite (lookup_app_r pre) by lia.
  by replace (S (length pre) - length pre)%nat with 1%nat by lia.
Qed.

Lemma write_snoc pre a b seg :
  Snake.write (pre ++ [a; b]) (Snake.refer (length pre) (S (length pre))) seg
  = pre ++ [LineSegment.head seg; LineSegment.tail seg].
Proof.
  unfold Snake.write. simpl. induction pre as [|p pre IH]; [reflexivity|].
  simpl. f_equal. apply IH.
Qed.

Lemma mutate_snoc f pre a b :
  Snake.mutate f (pre ++ [a; b]) (Snake.refer (length pre) (S (length pre)))
  = pre ++ [LineSegment.head (f (LineSegment.mk a b));
            LineSegment.tail (f (LineSegment.mk a b))].
Proof. unfold Snake.mutate. by rewrite read_snoc, write_snoc. Qed.

Lemma mutate_first f p q l :
  Snake.mutate f (p :: q :: l) (Snake.refer 0 1)
  = LineSegment.head (f (LineSegment.mk p q))
      :: LineSegment.tail (f (LineSegment.mk p q)) :: l.
Proof. reflexivity. Qed.

End PointList.

(** ** Length and soundness of a path, by its two ends *)

Section Paths.

Implicit Types (p q a b : Point.t) (l pre : list Point.t).

Lemma path_length_cons a b l :
  Snake.path_length (a :: b :: l)
  = Snake.pair_length (a, b) + Snake.path_length (b :: l).
Proof. unfold Snake.path_length. by rewrite segments_cons. Qed.

Lemma foldr_add_app (xs ys : list Z) :
  foldr Z.add 0 (xs ++ ys) = foldr Z.add 0 xs + foldr Z.add 0 ys.
Proof. induction xs as [|x xs IH]; simpl; lia. Qed.

Lemma path_length_snoc pre a b :
  Snake.path_length (pre ++ [a; b])
  = Snake.path_length (pre ++ [a]) + Snake.pair_length (a, b).
Proof.
  unfold Snake.path_length.
  rewrite segments_snoc, map_app, foldr_add_app. simpl. lia.
Qed.

Lemma sound_path_cons a b l :
  Snake.sound_path (a :: b :: l)
  = Snake.sound_pair (a, b) && Snake.sound_path (b :: l).
Proof. unfold Snake.sound_path. by rewrite segments_cons. Qed.

Lemma sound_path_snoc pre a b :
  Snake.sound_path (pre ++ [a; b])
  = Snake.sound_path (pre ++ [a]) && Snake.sound_pair (a, b).
Proof.
  unfold Snake.sound_path.
  rewrite segments_snoc, forallb_app. simpl. by rewrite andb_true_r.
Qed.

Lemma sound_pair_inv a b :
  Snake.sound_pair (a, b) = true ->
  Snake.axis_aligned (LineSegment.mk a b) = true
  /\ LineSegment.length (LineSegment.mk a b) <> 0.
Proof.
  unfold Snake.sound_pair. simpl. intros [Ha Hl]%andb_true_iff.
  split; [done|]. by apply negb_true_iff, bool_decide_eq_false in Hl.
Qed.

Lemma sound_pair_intro a b :
  Snake.axis_aligned (LineSegment.mk a b) = true ->
  LineSegment.length (LineSegment.mk a b) <> 0 ->
  Snake.sound_pair (a, b) = true.
Proof.
  intros Ha Hl. unfold Snake.sound_pair. simpl. rewrite Ha. simpl.
  by apply negb_true_iff, bool_decide_eq_false.
Qed.

Lemma path_length_nonneg l : 0 <= Snake.path_length l.
Proof.
  induction l as [|a l IH]; [done|].
  destruct l as [|b l]; [done|].
  rewrite path_length_cons. unfold Snake.pair_length.
  pose proof (length_nonneg (LineSegment.mk (a, b).1 (a, b).2)). lia.
Qed.

(** A sound path over at least two points has length at least 1. *)
Lemma sound_path_length l :
  (2 <= length l)%nat -> Snake.sound_path l = true -> 1 <= Snake.path_length l.
Proof.
  destruct l as [|a [|b l]]; simpl; try lia. intros _.
  rewrite sound_path_cons, path_length_cons.
  intros [[_ Hl]%sound_pair_inv _]%andb_true_iff.
  pose proof (length_nonneg (LineSegment.mk a b)).
  pose proof (path_length_nonneg (b :: l)).
  unfold Snake.pair_length. simpl. lia.
Qed.

End Paths.

(** ** The three phases of [Snake.move] *)

Section Phases.

Implicit Types (self : Snake.t) (p q a b : Point.t) (l pre : list Point.t).
Implicit Types (d : Direction.t) (direction : option Direction.t).

Lemma advance_head_short self direction :
  (length (Snake.points self) < 2)%nat -> Snake.advance_head self direction = None.
Proof.
  intros Hl. unfold Snake.advance_head. by rewrite segment_at_first_short.
Qed.

Lemma advance_head_straight self direction p q l :
  Snake.points self = p :: q :: l ->
  Snake.keeps_course self direction = true ->
  Snake.advance_head self direction
  = Some (Snake.mk (LineSegment.head (LineSegment.increment (LineSegment.mk p q)) :: q :: l)
            (Snake.direction self),
          Snake.refer (length l) (S (length l))).
Proof.
  intros Hp Hk. unfold Snake.advance_head.
  rewrite Hp, segment_at_first, segment_at_last by (simpl; lia).
  rewrite mutate_first, increment_tail. simpl length.
  replace (S (S (length l)) - 2)%nat with (length l) by lia.
  replace (S (S (length l)) - 1)%nat with (S (length l)) by lia.
  destruct direction as [d|]; [by rewrite Hk | done].
Qed.

Lemma advance_head_turn self d p q l :
  Snake.points self = p :: q :: l ->
  Snake.keeps_course self (Some d) = false ->
  Snake.advance_head self (Some d)
  = Some (Snake.mk (Point.move p d :: p :: q :: l) d,
          Snake.refer (S (length l)) (S (S (length l)))).
Proof.
  intros Hp Hk. unfold Snake.advance_head.
  rewrite Hp, segment_at_first, segment_at_last by (simpl; lia).
  rewrite Hk. simpl length.
  replace (S (S (length l)) - 2)%nat with (length l) by lia.
  replace (S (S (length l)) - 1)%nat with (S (length l)) by lia.
  reflexivity.
Qed.

Lemma detect_collision_cons self p l :
  Snake.points self = p :: l ->
  Snake.detect_collision self
  = if existsb (Snake.hits p) (Snake.segments l)
    then Snake.Exited self else Snake.Returned self.
Proof.
  intros Hp. unfold Snake.detect_collision.
  by rewrite Hp, body_segments_cons.
Qed.

Lemma shrink_tail_snoc pre a b d :
  Snake.shrink_tail (Snake.mk (pre ++ [a; b]) d)
    (Snake.refer (length pre) (S (length pre)))
  = let b' := LineSegment.tail (LineSegment.decrement (LineSegment.mk a b)) in
    if bool_decide (b' = a)
    then Snake.Returned (Snake.mk (pre ++ [a]) d)
    else Snake.Returned (Snake.mk (pre ++ [a; b']) d).
Proof.
  unfold Snake.shrink_tail. simpl Snake.points.
  rewrite mutate_snoc, decrement_head. simpl LineSegment.head.
  rewrite read_snoc. simpl Snake.direction. cbv zeta.
  set (b' := LineSegment.tail _).
  rewrite (bool_decide_ext _ (b' = a)).
  - case_bool_decide; [|done].
    rewrite length_app. simpl length.
    replace (length pre + 2 - 1)%nat with (length (pre ++ [a])) by (rewrite length_app; simpl; lia).
    change [a; b'] with ([a] ++ [b']). rewrite app_assoc.
    by rewrite take_app_length.
  - unfold LineSegment.length. simpl. rewrite distance_from_zero. split; congruence.
Qed.

(** The tail step on a sound path whose length is at least 2: it
    returns, the path stays sound over at least two points, one unit of
    length is lost, and every point but the last keeps its place. *)
Lemma shrink_tail_sound l d :
  (2 <= length l)%nat ->
  Snake.sound_path l = true ->
  2 <= Snake.path_length l ->
  exists self',
    Snake.shrink_tail (Snake.mk l d)
      (Snake.refer (length l - 2) (length l - 1)) = Snake.Returned self'
    /\ Snake.well_formed self' = true
    /\ Snake.total_length self' = Snake.path_length l - 1
    /\ Snake.direction self' = d
    /\ (forall i : nat, (i < length l - 1)%nat -> Snake.points self' !! i = l !! i).
Proof.
  intros Hlen Hs Hpl.
  destruct (last_two l Hlen) as (pre & a & b & ->).
  rewrite length_app. simpl length.
  replace (length pre + 2 - 2)%nat with (length pre) by lia.
  replace (length pre + 2 - 1)%nat with (S (length pre)) by lia.
  rewrite shrink_tail_snoc. cbv zeta.
  rewrite sound_path_snoc in Hs. apply andb_true_iff in Hs as [Hpre Hab].
  apply sound_pair_inv in Hab as [Haa Hlab].
  pose proof (decrement_length _ Haa Hlab) as Hdl.
  pose proof (decrement_axis_aligned _ Haa) as Hda.
  pose proof (decrement_head (LineSegment.mk a b)) as Hdh.
  rewrite path_length_snoc in Hpl |- *. unfold Snake.pair_length in *. simpl in *.
  destruct (LineSegment.decrement (LineSegment.mk a b)) as [a' b'] eqn:Hdec.
  simpl in *. subst a'.
  assert (Hlookup : forall (i : nat) tl, (i < S (length pre))%nat ->
            (pre ++ a :: tl) !! i = (pre ++ [a; b]) !! i).
  { intros i tl Hi. destruct (decide (i < length pre)%nat).
    - by rewrite !lookup_app_l by done.
    - replace i with (length pre) by lia. by rewrite !list_lookup_middle. }
  case_bool_decide as Hz.
  - subst b'. eexists. split; [reflexivity|].
    assert (LineSegment.length (LineSegment.mk a a) = 0) as Hz
      by (by apply distance_from_zero).
    repeat split.
    + unfold Snake.well_formed. simpl. rewrite Hpre, andb_true_r.
      apply bool_decide_eq_true. rewrite length_app. simpl.
      destruct pre; simpl in *; [|lia].
      unfold Snake.path_length in Hpl. simpl in Hpl. lia.
    + unfold Snake.total_length. simpl. lia.
    + intros i Hi. simpl. apply Hlookup. lia.
  - eexists. split; [reflexivity|]. repeat split.
    + unfold Snake.well_formed. simpl. rewrite sound_path_snoc, Hpre. simpl.
      rewrite andb_true_iff. split.
      * apply bool_decide_eq_true. rewrite length_app. simpl. lia.
      * apply sound_pair_intro; [done|].
        intros E. apply Hz. symmetry. by apply distance_from_zero.
    + unfold Snake.total_length. simpl. rewrite path_length_snoc.
      unfold Snake.pair_length. simpl. lia.
    + intros i Hi. simpl. apply Hlookup. lia.
Qed.

End Phases.

(** ** A whole tick on a well-formed snake *)

Section Tick.

Implicit Types (self : Snake.t) (p q : Point.t) (l : list Point.t).
Implicit Types (d : Direction.t) (direction : option Direction.t).

Lemma well_formed_inv self :
  Snake.well_formed self = true ->
  exists p q l,
    Snake.points self = p :: q :: l
    /\ Snake.sound_pair (p, q) = true
    /\ Snake.sound_path (q :: l) = true.
Proof.
  unfold Snake.well_formed. intros [Hlen Hs]%andb_true_iff.
  apply bool_decide_eq_true in Hlen.
  destruct (Snake.points self) as [|p [|q l]] eqn:Hp; simpl in Hlen; try lia.
  rewrite sound_path_cons in Hs. apply andb_true_iff in Hs as [? ?].
  by exists p, q, l.
Qed.

(** After the head step the path is still sound, it has grown by exactly
    one unit, and [last_seg] refers to its last two points. *)
Lemma advance_head_sound self direction :
  Snake.well_formed self = true ->
  exists self1,
    Snake.advance_head self direction
    = Some (self1, Snake.refer (length (Snake.points self1) - 2)
                     (length (Snake.points self1) - 1))
    /\ (2 <= length (Snake.points self1))%nat
    /\ Snake.sound_path (Snake.points self1) = true
    /\ Snake.path_length (Snake.points self1) = Snake.total_length self + 1.
Proof.
  intros (p & q & l & Hp & Hpq & Hrest)%well_formed_inv.
  unfold Snake.total_length. rewrite Hp, path_length_cons.
  apply sound_pair_inv in Hpq as [Ha Hl].
  destruct (Snake.keeps_course self direction) eqn:Hk.
  - rewrite (advance_head_straight _ _ _ _ _ Hp Hk).
    match goal with |- exists s, Some (?w, _) = _ /\ _ => exists w end.
    split; [simpl length; do 3 f_equal; lia|]. simpl Snake.points.
    pose proof (increment_length _ Ha Hl) as Hil.
    pose proof (increment_axis_aligned _ Ha) as Hia.
    pose proof (increment_tail (LineSegment.mk p q)) as Hit.
    destruct (LineSegment.increment (LineSegment.mk p q)) as [p' q'].
    simpl in *. subst q'.
    split; [simpl; lia|]. split.
    + rewrite sound_path_cons, Hrest, andb_true_r.
      apply sound_pair_intro; [done|]. pose proof (length_nonneg (LineSegment.mk p q)). lia.
    + rewrite path_length_cons. unfold Snake.pair_length. simpl. lia.
  - destruct direction as [d|]; [|done].
    rewrite (advance_head_turn _ _ _ _ _ Hp Hk).
    match goal with |- exists s, Some (?w, _) = _ /\ _ => exists w end.
    split; [simpl length; do 3 f_equal; lia|]. simpl Snake.points.
    destruct (step_segment p d) as [Hsa Hsl].
    split; [simpl; lia|]. split.
    + rewrite !sound_path_cons, Hrest, andb_true_r.
      apply andb_true_iff. split; apply sound_pair_intro; try done. lia.
    + rewrite !path_length_cons. unfold Snake.pair_length. simpl. lia.
Qed.

(** A tick on a well-formed snake never fails on a subscript.  It ends
    the process at the collision check, with the snake as the head step
    left it, or it returns a well-formed snake of the same total length. *)
Lemma move_sound self direction :
  Snake.well_formed self = true ->
  exists self1 last_seg,
    Snake.advance_head self direction = Some (self1, last_seg)
    /\ (Snake.move self direction = Snake.Exited self1
        \/ exists self',
             Snake.move self direction = Snake.Returned self'
             /\ Snake.well_formed self' = true
             /\ Snake.total_length self' = Snake.total_length self
             /\ Snake.direction self' = Snake.direction self1).
Proof.
  intros Hwf.
  destruct (advance_head_sound self direction Hwf)
    as (self1 & Hadv & Hlen & Hs & Hpl).
  exists self1, (Snake.refer (length (Snake.points self1) - 2)
                   (length (Snake.points self1) - 1)).
  split; [done|]. unfold Snake.move. rewrite Hadv.
  destruct (Snake.points self1) as [|h l1] eqn:Hp1; [simpl in Hlen; lia|].
  rewrite (detect_collision_cons _ _ _ Hp1).
  destruct (existsb _ _); [by left | right].
  destruct self1 as [l1' d1]. simpl in Hp1. subst l1'. simpl Snake.points in *.
  pose proof (sound_path_length _ Hlen Hs) as Hge.
  assert (Hge2 : 2 <= Snake.path_length (h :: l1)).
  { unfold Snake.well_formed in Hwf.
    apply andb_true_iff in Hwf as [Hn%bool_decide_eq_true Hsp].
    pose proof (sound_path_length _ Hn Hsp).
    unfold Snake.total_length in Hpl. lia. }
  destruct (shrink_tail_sound (h :: l1) d1 Hlen Hs Hge2)
    as (self' & Hsh & Hwf' & Htl & Hd & _).
  exists self'. rewrite Hsh. repeat split; try done. lia.
Qed.

End Tick.

(** ** Direction requests *)

Lemma keeps_course_spec (self : Snake.t) (direction : option Direction.t) :
  Snake.keeps_course self direction = true <->
  direction = None
  \/ direction = Some (Snake.direction self)
  \/ exists d, direction = Some d /\ Direction.is_opp d (Snake.direction self) = true.
Proof.
  destruct direction as [d|]; simpl.
  - rewrite orb_true_iff, bool_decide_eq_true. split.
    + intros [->|Ho]; [by right; left | right; right; by exists d].
    + intros [?|[[= ->]|(d' & [= <-] & Ho)]]; [done | by left | by right].
  - split; [by left | done].
Qed.

(** ** Collision detection *)

Section Collision.

Implicit Types (self s : Snake.t) (p q a b head : Point.t) (l : list Point.t).
Implicit Types (direction : option Direction.t).

Lemma detect_collision_exited s :
  Snake.detect_collision s = Snake.Exited s <-> head_on_body s.
Proof.
  unfold head_on_body, head_meets.
  destruct (Snake.points s) as [|h l] eqn:Hp.
  - unfold Snake.detect_collision. rewrite Hp. split; [done|].
    by intros (? & ? & ? & ? & ? & _).
  - rewrite (detect_collision_cons _ _ _ Hp). split.
    + destruct (existsb _ _) eqn:He; [|done]. intros _.
      apply existsb_exists in He as ([a b] & Hin & Hhit).
      apply list_elem_of_In, list_elem_of_lookup in Hin as [i Hi].
      apply segments_lookup in Hi as [Ha Hb].
      exists h, (S i), a, b. repeat split; try done. lia.
    + intros (head & i & a & b & [= <-] & Hi & Ha & Hb & Hhit).
      destruct i as [|i]; [lia|]. simpl in Ha, Hb.
      assert (He : existsb (Snake.hits h) (Snake.segments l) = true).
      { apply existsb_exists. exists (a, b). split; [|done].
        apply list_elem_of_In, list_elem_of_lookup. exists i.
        by apply segments_lookup. }
      by rewrite He.
Qed.

Lemma detect_collision_returned s :
  Snake.detect_collision s = Snake.Returned s <->
  Snake.points s <> [] /\ ~ head_on_body s.
Proof.
  rewrite <- detect_collision_exited.
  destruct (Snake.points s) as [|h l] eqn:Hp.
  - unfold Snake.detect_collision. rewrite Hp. by split; [|intros [? _]].
  - rewrite (detect_collision_cons _ _ _ Hp).
    destruct (existsb _ _); split; try done.
    intros [_ H]. by destruct H.
Qed.

Lemma shrink_tail_not_exited s (r : Snake.segment_ref) s' :
  Snake.shrink_tail s r <> Snake.Exited s'.
Proof.
  unfold Snake.shrink_tail. destruct (Snake.read _ _); [|done].
  by case_bool_decide.
Qed.

(** [move] ends the process exactly when the check made right after the
    head step does. *)
Lemma move_exited self direction self1 (last_seg : Snake.segment_ref) :
  Snake.advance_head self direction = Some (self1, last_seg) ->
  Snake.move self direction = Snake.Exited self1
  <-> Snake.detect_collision self1 = Snake.Exited self1.
Proof.
  intros Hadv. unfold Snake.move. rewrite Hadv.
  destruct (Snake.detect_collision self1) as [s'| s'|] eqn:Hd; split; try done.
  intros H. by apply shrink_tail_not_exited in H.
Qed.

(** Whatever the snake, when the head step succeeds [last_seg] refers to
    the last two of at least two points. *)
Lemma advance_head_ref self direction self1 (last_seg : Snake.segment_ref) :
  Snake.advance_head self direction = Some (self1, last_seg) ->
  (2 <= length (Snake.points self1))%nat
  /\ last_seg = Snake.refer (length (Snake.points self1) - 2)
                  (length (Snake.points self1) - 1).
Proof.
  intros Hadv.
  destruct (Snake.points self) as [|p [|q l]] eqn:Hp.
  1,2: rewrite advance_head_short in Hadv by (rewrite Hp; simpl; lia); done.
  destruct (Snake.keeps_course self direction) eqn:Hk.
  - rewrite (advance_head_straight _ _ _ _ _ Hp Hk) in Hadv.
    injection Hadv as <- <-. simpl. split; [lia|]. f_equal; lia.
  - destruct direction as [d|]; [|done].
    rewrite (advance_head_turn _ _ _ _ _ Hp Hk) in Hadv.
    injection Hadv as <- <-. simpl. split; [lia|]. f_equal; lia.
Qed.

End Collision.

(** ** The tail step in general *)

Section TailStep.

Implicit Types (self : Snake.t) (p q a b : Point.t) (l pre : list Point.t).
Implicit Types (d : Direction.t) (seg : LineSegment.t).

(** The tail step on any list of at least two points: the last point is
    dropped when the decremented tail segment has length 0, and replaced
    by the moved tail otherwise. *)
Lemma shrink_tail_prune l d seg :
  (2 <= length l)%nat ->
  Snake.read l (Snake.refer (length l - 2) (length l - 1)) = Some seg ->
  Snake.shrink_tail (Snake.mk l d) (Snake.refer (length l - 2) (length l - 1))
  = Snake.Returned
      (Snake.mk
         (if bool_decide (LineSegment.length (LineSegment.decrement seg) = 0)
          then take (length l - 1)%nat l
          else <[(length l - 1)%nat := LineSegment.tail (LineSegment.decrement seg)]> l)
         d).
Proof.
  intros Hlen Hread.
  destruct (last_two l Hlen) as (pre & a & b & ->).
  revert Hread. rewrite length_app. simpl length.
  replace (length pre + 2 - 2)%nat with (length pre) by lia.
  replace (length pre + 2 - 1)%nat with (S (length pre)) by lia.
  rewrite read_snoc. intros [= <-].
  rewrite shrink_tail_snoc. cbv zeta.
  set (b' := LineSegment.tail _).
  assert (Hz : LineSegment.length (LineSegment.decrement (LineSegment.mk a b)) = 0
               <-> b' = a).
  { unfold LineSegment.length. rewrite distance_from_zero, decrement_head.
    simpl. fold b'. split; congruence. }
  rewrite (bool_decide_ext _ _ Hz).
  case_bool_decide.
  - do 2 f_equal. change [a; b] with ([a] ++ [b]). rewrite app_assoc.
    replace (S (length pre)) with (length (pre ++ [a]))
      by (rewrite length_app; simpl; lia).
    by rewrite take_app_length.
  - do 2 f_equal. rewrite insert_app_r_alt by lia.
    by replace (S (length pre) - length pre)%nat with 1%nat by lia.
Qed.

(** It returns on every such list, keeping the direction and every point
    but the last. *)
Lemma shrink_tail_keeps_front l d :
  (2 <= length l)%nat ->
  exists self',
    Snake.shrink_tail (Snake.mk l d) (Snake.refer (length l - 2) (length l - 1))
    = Snake.Returned self'
    /\ Snake.direction self' = d
    /\ (forall i : nat, (i < length l - 1)%nat -> Snake.points self' !! i = l !! i).
Proof.
  intros Hlen.
  destruct (Snake.read l (Snake.refer (length l - 2) (length l - 1))) as [seg|] eqn:Hread.
  - rewrite (shrink_tail_prune _ _ _ Hlen Hread).
    eexists. split; [reflexivity|]. split; [reflexivity|].
    intros i Hi. simpl. case_bool_decide.
    + by rewrite lookup_take_lt.
    + rewrite list_lookup_insert_ne by lia. done.
  - exfalso. unfold Snake.read in Hread. simpl in Hread.
    destruct (lookup_lt_is_Some_2 l (length l - 2)%nat) as [a Ha]; [lia|].
    destruct (lookup_lt_is_Some_2 l (length l - 1)%nat) as [b Hb]; [lia|].
    by rewrite Ha, Hb in Hread.
Qed.

End TailStep.

(** The invariant, point by point. *)
Lemma well_formed_spec (self : Snake.t) :
  Snake.well_formed self = true <->
  (2 <= length (Snake.points self))%nat
  /\ forall (i : nat) a b,
       Snake.points self !! i = Some a ->
       Snake.points self !! S i = Some b ->
       (LineSegment.is_horizontal (LineSegment.mk a b) = true
        \/ LineSegment.is_vertical (LineSegment.mk a b) = true)
       /\ LineSegment.length (LineSegment.mk a b) <> 0.
Proof.
  unfold Snake.well_formed, Snake.sound_path.
  rewrite andb_true_iff, bool_decide_eq_true, forallb_forall.
  split; intros [Hlen Hall]; (split; [done|]).
  - intros i a b Ha Hb.
    assert (Hin : In (a, b) (Snake.segments (Snake.points self))).
    { apply list_elem_of_In, list_elem_of_lookup. exists i. by apply segments_lookup. }
    apply Hall, sound_pair_inv in Hin as [Haa Hl].
    split; [|done]. by apply orb_true_iff in Haa.
  - intros [a b] Hin.
    apply list_elem_of_In, list_elem_of_lookup in Hin as [i Hi].
    apply segments_lookup in Hi as [Ha Hb].
    destruct (Hall i a b Ha Hb) as [Hax Hl].
    apply sound_pair_intro; [|done]. by apply orb_true_iff.
Qed.

(** On a well-formed snake [lies_on] has its geometric meaning. *)
Lemma head_on_body_within (s : Snake.t) :
  Snake.well_formed s = true -> head_on_body s <-> head_within_body s.
Proof.
  intros [_ Hall]%well_formed_spec.
  unfold head_on_body, head_within_body, head_meets.
  split; intros (head & i & a & b & H0 & Hi & Ha & Hb & Hon);
    exists head, i, a, b; repeat split; try done;
    destruct (Hall i a b Ha Hb) as [Hax%orb_true_iff _];
    by apply (lies_on_axis_aligned (LineSegment.mk a b) head Hax).
Qed.

(** [move] calls [decrement] on a segment of non-zero length: the tail
    segment of a well-formed snake is still sound after the head step. *)
Lemma tail_segment_positive_at_shrink
    (self : Snake.t) (direction : option Direction.t)
    (self1 : Snake.t) (last_seg : Snake.segment_ref) (tail_seg : LineSegment.t) :
  Snake.well_formed self = true ->
  Snake.advance_head self direction = Some (self1, last_seg) ->
  Snake.read (Snake.points self1) last_seg = Some tail_seg ->
  Snake.axis_aligned tail_seg = true /\ LineSegment.length tail_seg <> 0.
Proof.
  intros Hwf Hadv Hread.
  destruct (advance_head_sound self direction Hwf) as (self1' & Hadv' & Hlen & Hs & _).
  rewrite Hadv in Hadv'. injection Hadv' as <- ->.
  destruct (last_two _ Hlen) as (pre & a & b & Hp).
  rewrite Hp in Hread, Hs. revert Hread.
  rewrite length_app. simpl length.
  replace (length pre + 2 - 2)%nat with (length pre) by lia.
  replace (length pre + 2 - 1)%nat with (S (length pre)) by lia.
  rewrite read_snoc. intros [= <-].
  rewrite sound_path_snoc in Hs. apply andb_true_iff in Hs as [_ Hab].
  by apply sound_pair_inv.
Qed.

(** ** Staying in range *)

Section Range.

Implicit Types (self s : Snake.t) (p q a b : Point.t) (l : list Point.t).
Implicit Types (limit : Z) (d : Direction.t) (direction : option Direction.t).

Lemma point_in_range_spec limit p :
  point_in_range limit p = true
  <-> Z.abs (Point.y p) <= limit /\ Z.abs (Point.x p) <= limit.
Proof.
  unfold point_in_range. by rewrite andb_true_iff, !bool_decide_eq_true.
Qed.

Lemma point_in_range_mono limit limit' p :
  limit <= limit' -> point_in_range limit p = true -> point_in_range limit' p = true.
Proof. rewrite !point_in_range_spec. lia. Qed.

Lemma point_move_in_range limit p d :
  point_in_range limit p = true ->
  point_in_range (limit + 1) (Point.move p d) = true.
Proof.
  rewrite !point_in_range_spec. destruct p as [py px], d; simpl; lia.
Qed.

(** Two points in range, or one step beyond: the radicand of their
    distance is below [2^53], where every integer is a float. *)
Lemma in_range_radicand a b :
  point_in_range (coordinate_limit + 1) a = true ->
  point_in_range (coordinate_limit + 1) b = true ->
  (Point.y b - Point.y a) ^ 2 + (Point.x b - Point.x a) ^ 2 < 2 ^ 53.
Proof.
  rewrite !point_in_range_spec. unfold coordinate_limit.
  destruct a as [ay ax], b as [by' bx]. simpl.
  change (2 ^ 24 + 1) with 16777217. change (2 ^ 53) with 9007199254740992.
  intros [Hay Hax] [Hby Hbx].
  assert (Hy : Z.abs (by' - ay) <= 33554434) by lia.
  assert (Hx : Z.abs (bx - ax) <= 33554434) by lia.
  assert (Hyy : (by' - ay) ^ 2 <= 33554434 * 33554434).
  { rewrite Z.pow_2_r, <- Z.abs_square.
    apply Z.mul_le_mono_nonneg; lia. }
  assert (Hxx : (bx - ax) ^ 2 <= 33554434 * 33554434).
  { rewrite Z.pow_2_r, <- Z.abs_square.
    apply Z.mul_le_mono_nonneg; lia. }
  lia.
Qed.

Lemma increment_head_in_range limit (seg : LineSegment.t) :
  point_in_range limit (LineSegment.head seg) = true ->
  point_in_range (limit + 1) (LineSegment.head (LineSegment.increment seg)) = true.
Proof.
  intros Hh. unfold LineSegment.increment.
  destruct (LineSegment.is_horizontal seg);
    [|destruct (LineSegment.is_vertical seg)];
    try case_bool_decide;
    cbn [LineSegment.head]; try by apply point_move_in_range.
  apply (point_in_range_mono limit); [lia | done].
Qed.

Lemma decrement_tail_in_range limit (seg : LineSegment.t) :
  point_in_range limit (LineSegment.tail seg) = true ->
  point_in_range (limit + 1) (LineSegment.tail (LineSegment.decrement seg)) = true.
Proof.
  intros Hh. unfold LineSegment.decrement.
  destruct (LineSegment.is_horizontal seg);
    [|destruct (LineSegment.is_vertical seg)];
    try case_bool_decide;
    cbn [LineSegment.tail]; try by apply point_move_in_range.
  apply (point_in_range_mono limit); [lia | done].
Qed.

Lemma forallb_Forall {A} (f : A -> bool) (xs : list A) :
  forallb f xs = true <-> Forall (fun x => f x = true) xs.
Proof.
  induction xs as [|x xs IH]; cbn [forallb].
  - split; [constructor | done].
  - split.
    + intros [Hx Hxs]%andb_true_iff. constructor; [done | by apply IH].
    + intros Hall. inversion Hall as [|? ? Hx Hxs]; subst.
      apply andb_true_iff. split; [done | by apply IH].
Qed.

(** The head step: the new or advanced head is at most one unit out of
    range, the points behind it are those that were there. *)
Lemma advance_head_range_shape limit self direction self1 (r : Snake.segment_ref) :
  forallb (point_in_range limit) (Snake.points self) = true ->
  Snake.advance_head self direction = Some (self1, r) ->
  exists h rest,
    Snake.points self1 = h :: rest
    /\ r = Snake.refer (length (h :: rest) - 2) (length (h :: rest) - 1)
    /\ (1 <= length rest)%nat
    /\ point_in_range (limit + 1) h = true
    /\ Forall (fun x => point_in_range limit x = true) rest.
Proof.
  intros Hin Hadv.
  destruct (Snake.points self) as [|p [|q l]] eqn:Hp.
  1,2: rewrite advance_head_short in Hadv by (rewrite Hp; simpl; lia); done.
  apply forallb_Forall in Hin.
  inversion Hin as [|? ? Hpr Hrest]; subst.
  destruct (Snake.keeps_course self direction) eqn:Hk.
  - rewrite (advance_head_straight _ _ _ _ _ Hp Hk) in Hadv.
    inversion Hadv; subst; clear Hadv.
    exists (LineSegment.head (LineSegment.increment (LineSegment.mk p q))), (q :: l).
    split; [done|]. simpl length.
    split; [f_equal; lia|]. split; [lia|]. split; [|done].
    by apply increment_head_in_range.
  - destruct direction as [d|]; [|done].
    rewrite (advance_head_turn _ _ _ _ _ Hp Hk) in Hadv.
    inversion Hadv; subst; clear Hadv.
    exists (Point.move p d), (p :: q :: l).
    split; [done|]. simpl length.
    split; [f_equal; lia|]. split; [lia|].
    split; [by apply point_move_in_range | by constructor].
Qed.

Lemma advance_head_stays_in_range limit self direction self1 (r : Snake.segment_ref) :
  forallb (point_in_range limit) (Snake.points self) = true ->
  Snake.advance_head self direction = Some (self1, r) ->
  forallb (point_in_range (limit + 1)) (Snake.points self1) = true.
Proof.
  intros Hin Hadv.
  destruct (advance_head_range_shape _ _ _ _ _ Hin Hadv)
    as (h & rest & -> & _ & _ & Hh & Hr).
  apply forallb_Forall. constructor; [done|].
  eapply Forall_impl; [|exact Hr].
  intros x Hx. apply (point_in_range_mono limit); [lia | done].
Qed.

(** A move takes no point further than one unit from where the points
    were: the snake it ends with is in range with one unit more. *)
Lemma move_stays_in_range limit self direction s :
  forallb (point_in_range limit) (Snake.points self) = true ->
  Snake.move self direction = Snake.Returned s
  \/ Snake.move self direction = Snake.Exited s ->
  forallb (point_in_range (limit + 1)) (Snake.points s) = true.
Proof.
  intros Hin Hm.
  destruct (Snake.advance_head self direction) as [[self1 r]|] eqn:Hadv;
    [|unfold Snake.move in Hm; rewrite Hadv in Hm; by destruct Hm].
  pose proof (advance_head_stays_in_range _ _ _ _ _ Hin Hadv) as HL.
  destruct (advance_head_range_shape _ _ _ _ _ Hin Hadv)
    as (h & rest & Hp1 & -> & Hlen & Hh & Hr).
  unfold Snake.move in Hm. rewrite Hadv in Hm.
  rewrite (detect_collision_cons _ h rest) in Hm by done.
  destruct (existsb _ _).
  { destruct Hm as [Hm | Hm]; [done|]. by injection Hm as <-. }
  destruct Hm as [Hm | Hm]; [|by apply shrink_tail_not_exited in Hm].
  destruct self1 as [l1 d1]. simpl in Hp1. subst l1. simpl Snake.points in HL.
  apply forallb_Forall in HL.
  assert (Hlen2 : (2 <= length (h :: rest))%nat) by (simpl; lia).
  destruct (lookup_lt_is_Some_2 (h :: rest) (length (h :: rest) - 2)%nat)
    as [a Ha]; [lia|].
  destruct (lookup_lt_is_Some_2 (h :: rest) (length (h :: rest) - 1)%nat)
    as [b Hb]; [lia|].
  assert (Hread : Snake.read (h :: rest)
                    (Snake.refer (length (h :: rest) - 2) (length (h :: rest) - 1))
                  = Some (LineSegment.mk a b)).
  { unfold Snake.read. cbn [Snake.head_at Snake.tail_at]. by rewrite Ha, Hb. }
  rewrite (shrink_tail_prune _ _ _ Hlen2 Hread) in Hm. injection Hm as <-.
  apply forallb_Forall. simpl Snake.points.
  assert (Hbr : point_in_range limit b = true).
  { simpl length in Hb.
    replace (S (length rest) - 1)%nat with (S (length rest - 1)) in Hb by lia.
    simpl in Hb. eapply (proj1 (Forall_lookup _ _) Hr). exact Hb. }
  case_bool_decide.
  - by apply Forall_take.
  - apply Forall_insert; [done|].
    by apply (decrement_tail_in_range limit (LineSegment.mk a b)).
Qed.

Lemma in_range_points self :
  in_range self = true ->
  forallb (point_in_range coordinate_limit) (Snake.points self) = true.
Proof.
  unfold in_range, in_range_for. intros [Hin _]%andb_true_iff.
  by rewrite Z.sub_0_r in Hin.
Qed.

(** After the head step, and after the whole move, of a snake in range
    every length is still computed exactly. *)
Lemma in_range_advance_head self direction self1 (r : Snake.segment_ref) :
  in_range self = true ->
  Snake.advance_head self direction = Some (self1, r) ->
  lengths_exact self1 = true.
Proof.
  intros Hin%in_range_points Hadv.
  by apply (advance_head_stays_in_range _ _ _ _ _ Hin Hadv).
Qed.

Lemma in_range_move self direction s :
  in_range self = true ->
  Snake.move self direction = Snake.Returned s
  \/ Snake.move self direction = Snake.Exited s ->
  lengths_exact s = true.
Proof.
  intros Hin%in_range_points Hm.
  by apply (move_stays_in_range _ _ _ _ Hin Hm).
Qed.

Lemma in_range_for_mono (m n : nat) self :
  (m <= n)%nat -> in_range_for n self = true -> in_range_for m self = true.
Proof.
  unfold in_range_for. intros Hmn [Hin Htl]%andb_true_iff.
  apply andb_true_iff. split; [|done].
  apply forallb_Forall. apply forallb_Forall in Hin.
  eapply Forall_impl; [|exact Hin].
  intros x Hx. eapply point_in_range_mono; [|exact Hx]. lia.
Qed.

(** A snake in range for one more tick is, after a move that keeps its
    total length, in range for the ticks that remain. *)
Lemma in_range_for_step (n : nat) self direction s :
  in_range_for (S n) self = true ->
  Snake.move self direction = Snake.Returned s ->
  Snake.total_length s = Snake.total_length self ->
  in_range_for n s = true.
Proof.
  unfold in_range_for. intros [Hin Htl]%andb_true_iff Hm Heq.
  apply andb_true_iff. split; [|by rewrite Heq].
  replace (coordinate_limit - Z.of_nat n)
    with (coordinate_limit - Z.of_nat (S n) + 1) by lia.
  apply (move_stays_in_range _ self direction); [done | by left].
Qed.

End Range.

(** * The behaviour of the program *)

(** ** Collision detection *)

(** C1. [detect_collision] reports a collision (ends the process) exactly
    when the head, [points[0]], lies on a segment between consecutive
    points [points[i]], [points[i+1]] with [i >= 1], and returns exactly
    when there is a head and no such segment; on a well-formed snake
    lying on a segment is being one of its points.  Inside [move] the
    check is made on the snake as the head step left it, the tail not yet
    decremented: if the head then lies on the tail segment, and that is
    not the head segment, the move reports the collision. *)
Theorem collision_reported_before_tail_shrink
    (self : Snake.t) (direction : option Direction.t)
    (self1 : Snake.t) (last_seg : Snake.segment_ref)
    (head : Point.t) (tail_seg : LineSegment.t) :
  Snake.advance_head self direction = Some (self1, last_seg) ->
  Snake.points self1 !! 0%nat = Some head ->
  Snake.read (Snake.points self1) last_seg = Some tail_seg ->
  (1 <= Snake.head_at last_seg)%nat ->
  truthy (LineSegment.lies_on tail_seg head) = true ->
  (forall s, Snake.detect_collision s = Snake.Exited s <-> head_on_body s)
  /\ (forall s, Snake.detect_collision s = Snake.Returned s
                <-> Snake.points s <> [] /\ ~ head_on_body s)
  /\ (forall s, Snake.well_formed s = true ->
                Snake.detect_collision s = Snake.Exited s <-> head_within_body s)
  /\ (Snake.move self direction = Snake.Exited self1
      <-> Snake.detect_collision self1 = Snake.Exited self1)
  /\ Snake.move self direction = Snake.Exited self1.
Proof.
  intros Hadv Hhead Hread Hpos Hon.
  split; [apply detect_collision_exited|].
  split; [apply detect_collision_returned|].
  split.
  { intros s Hwf. rewrite detect_collision_exited. by apply head_on_body_within. }
  split; [by apply (move_exited _ _ _ last_seg)|].
  apply (move_exited _ _ _ last_seg Hadv), detect_collision_exited.
  destruct (advance_head_ref _ _ _ _ Hadv) as [Hlen ->].
  unfold Snake.read in Hread. simpl in Hread, Hpos.
  destruct (Snake.points self1 !! (length (Snake.points self1) - 2)%nat)
    as [a|] eqn:Ha; [|done].
  destruct (Snake.points self1 !! (length (Snake.points self1) - 1)%nat)
    as [b|] eqn:Hb; [|done].
  injection Hread as <-.
  exists head, (length (Snake.points self1) - 2)%nat, a, b.
  repeat split; try done.
  by replace (S (length (Snake.points self1) - 2))
    with (length (Snake.points self1) - 1)%nat by lia.
Qed.

(** On [coiled] a step north puts the head on (0,0), the end of the tail
    segment from (0,3) to (0,0), a cell the tail shrink of the same tick
    would have left. *)
Lemma collision_reported_before_tail_shrink_witness :
  let after_head_step :=
    Snake.mk [pt 0 0; pt 2 0; pt 2 3; pt 0 3; pt 0 0] Direction.north in
  Snake.move coiled None = Snake.Exited after_head_step
  /\ Snake.shrink_tail after_head_step (Snake.refer 3 4)
     = Snake.Returned (Snake.mk [pt 0 0; pt 2 0; pt 2 3; pt 0 3; pt 0 1] Direction.north)
  /\ Snake.detect_collision
       (Snake.mk [pt 0 0; pt 2 0; pt 2 3; pt 0 3; pt 0 1] Direction.north)
     = Snake.Returned
         (Snake.mk [pt 0 0; pt 2 0; pt 2 3; pt 0 3; pt 0 1] Direction.north).
Proof.
  intros after_head_step.
  split; [|split; reflexivity].
  apply (collision_reported_before_tail_shrink coiled None after_head_step
           (Snake.refer 3 4) (pt 0 0) (LineSegment.mk (pt 0 3) (pt 0 0)));
    first [reflexivity | simpl; lia].
Defined.

(** ** Total body length *)

(** C2. On a snake of at least two points whose segments are
    axis-aligned and of positive length, with coordinates in range (so
    that [length()] computes every length exactly and never overflows),
    a move that requests no direction, the current direction or its
    opposite never fails on a subscript: it ends the process at the
    collision check, or it returns a snake, heading as before, whose
    lengths are still computed exactly and whose total body length is
    the one before the move. *)
Theorem straight_move_keeps_total_length
    (self : Snake.t) (direction : option Direction.t) :
  Snake.well_formed self = true ->
  in_range self = true ->
  (direction = None
   \/ direction = Some (Snake.direction self)
   \/ exists d, direction = Some d /\ Direction.is_opp d (Snake.direction self) = true) ->
  (exists self1, Snake.move self direction = Snake.Exited self1)
  \/ (exists self',
        Snake.move self direction = Snake.Returned self'
        /\ Snake.direction self' = Snake.direction self
        /\ lengths_exact self' = true
        /\ Snake.total_length self' = Snake.total_length self).
Proof.
  intros Hwf Hin Hk%keeps_course_spec.
  destruct (move_sound self direction Hwf)
    as (self1 & last_seg & Hadv & [Hex | (self' & Hret & _ & Htl & Hd)]).
  - left. by exists self1.
  - right. exists self'. split; [done|]. split; [|split; [|done]].
    + destruct (well_formed_inv self Hwf) as (p & q & l & Hp & _).
      rewrite (advance_head_straight _ _ _ _ _ Hp Hk) in Hadv.
      injection Hadv as <- _. done.
    + apply (in_range_move self direction); [done | by left].
Qed.

Lemma straight_move_keeps_total_length_witness :
  Snake.well_formed scenario_start = true
  /\ in_range scenario_start = true
  /\ ((exists self1, Snake.move scenario_start None = Snake.Exited self1)
      \/ (exists self',
            Snake.move scenario_start None = Snake.Returned self'
            /\ Snake.direction self' = Snake.direction scenario_start
            /\ lengths_exact self' = true
            /\ Snake.total_length self' = Snake.total_length scenario_start)).
Proof.
  split; [reflexivity|]. split; [reflexivity|].
  apply (straight_move_keeps_total_length scenario_start None);
    [reflexivity | reflexivity | by left].
Defined.

(** ** The end-to-end scenario *)

(** C3, as stated: after the turn the points would be
    [(9,21),(10,21),(10,11)].  The code does not end there. *)
Lemma scenario_as_stated_fails :
  ~ (Snake.move scenario_start None = Snake.Returned scenario_east
     /\ Snake.move scenario_east (Some Direction.north)
        = Snake.Returned (Snake.mk [pt 9 21; pt 10 21; pt 10 11] Direction.north)).
Proof. intros [_ H]. vm_compute in H. discriminate H. Qed.

(** C3, amended. From points [(10,20),(10,10)] heading east, a move with
    no direction yields [(10,21),(10,11)]; a following move north yields
    [(9,21),(10,21),(10,12)] and direction north: the tail shrinks in the
    turn tick as well.  The list [(9,21),(10,21),(10,11)] is the snake
    after the head step of that tick, before its tail shrink. *)
Theorem scenario_east_then_north :
  Snake.move scenario_start None = Snake.Returned scenario_east
  /\ Snake.move scenario_east (Some Direction.north) = Snake.Returned scenario_north
  /\ fst <$> Snake.advance_head scenario_east (Some Direction.north)
     = Some (Snake.mk [pt 9 21; pt 10 21; pt 10 11] Direction.north).
Proof. repeat split; reflexivity. Qed.

(** ** Decrementing short segments *)

(** C4, as stated: decrementing a segment of length 0 would leave it
    unchanged.  A segment with head equal to tail is horizontal, and its
    tail is moved. *)
Lemma decrement_zero_length_changes :
  LineSegment.length (LineSegment.mk (pt 0 0) (pt 0 0)) = 0
  /\ LineSegment.decrement (LineSegment.mk (pt 0 0) (pt 0 0))
     <> LineSegment.mk (pt 0 0) (pt 0 0).
Proof. split; [reflexivity | discriminate]. Qed.

(** C4, amended. One [decrement] of an axis-aligned segment of length 1
    yields length 0, the tail landing on the head.  On a segment of
    length 0 [decrement] is not a no-op: such a segment passes the
    horizontal test with [head.x < tail.x] false, so the tail moves one
    unit east and the length becomes 1. *)
Theorem decrement_at_length_one_and_zero (unit_seg point_seg : LineSegment.t) :
  Snake.axis_aligned unit_seg = true ->
  LineSegment.length unit_seg = 1 ->
  LineSegment.length point_seg = 0 ->
  (LineSegment.length (LineSegment.decrement unit_seg) = 0
   /\ LineSegment.tail (LineSegment.decrement unit_seg) = LineSegment.head unit_seg)
  /\ (LineSegment.decrement point_seg
      = LineSegment.mk (LineSegment.head point_seg)
          (Point.move (LineSegment.tail point_seg) Direction.east)
      /\ LineSegment.length (LineSegment.decrement point_seg) = 1).
Proof.
  intros Ha Hone Hzero. split.
  - assert (Hnz : LineSegment.length unit_seg <> 0) by lia.
    pose proof (decrement_length _ Ha Hnz) as Hd.
    assert (Hz : LineSegment.length (LineSegment.decrement unit_seg) = 0) by lia.
    split; [done|].
    apply distance_from_zero in Hz. rewrite decrement_head in Hz. done.
  - apply distance_from_zero in Hzero.
    destruct point_seg as [[hy hx] [ty tx]]. simpl in Hzero.
    injection Hzero as -> ->.
    assert (Hdec : LineSegment.decrement (LineSegment.mk (Point.mk ty tx) (Point.mk ty tx))
                   = LineSegment.mk (Point.mk ty tx) (Point.mk ty (tx + 1))).
    { unfold LineSegment.decrement, LineSegment.is_horizontal, Point.has_same_y.
      simpl. rewrite bool_decide_eq_true_2 by done.
      by rewrite bool_decide_eq_false_2 by lia. }
    rewrite Hdec. split; [reflexivity|].
    rewrite length_horizontal by (apply bool_decide_eq_true; reflexivity).
    simpl. lia.
Qed.

Lemma decrement_at_length_one_and_zero_witness :
  (LineSegment.length (LineSegment.decrement (LineSegment.mk (pt 4 7) (pt 5 7))) = 0
   /\ LineSegment.tail (LineSegment.decrement (LineSegment.mk (pt 4 7) (pt 5 7))) = pt 4 7)
  /\ (LineSegment.decrement (LineSegment.mk (pt 3 3) (pt 3 3))
      = LineSegment.mk (pt 3 3) (pt 3 4)
      /\ LineSegment.length (LineSegment.decrement (LineSegment.mk (pt 3 3) (pt 3 3))) = 1).
Proof.
  apply (decrement_at_length_one_and_zero
           (LineSegment.mk (pt 4 7) (pt 5 7)) (LineSegment.mk (pt 3 3) (pt 3 3)));
    reflexivity.
Defined.

(** ** Corner glyphs *)

(** C5, as stated: [join] would write the upper-left corner at (5,2).
    It does not, whichever segment is the receiver and whichever way
    round the endpoints are given. *)
Lemma join_example_not_upper_left :
  Forall (fun pair : LineSegment.t * LineSegment.t =>
            LineSegment.join pair.1 (Some pair.2) <> Some (addch 5 2 ACS_ULCORNER))
    [(hseg, vseg); (hseg, vseg'); (hseg', vseg); (hseg', vseg');
     (vseg, hseg); (vseg', hseg); (vseg, hseg'); (vseg', hseg')].
Proof. repeat constructor; discriminate. Qed.

(** C5, amended. For the horizontal segment between (5,2) and (5,8) and
    the vertical segment between (5,2) and (1,2), [join] writes the
    lower-left corner glyph at (5,2): the shared point is left of both
    ends of the horizontal segment and, y growing downwards, below (not
    above) both ends of the vertical one. *)
Theorem join_example_lower_left :
  Forall (fun pair : LineSegment.t * LineSegment.t =>
            LineSegment.join pair.1 (Some pair.2) = Some (addch 5 2 ACS_LLCORNER))
    [(hseg, vseg); (hseg, vseg'); (hseg', vseg); (hseg', vseg');
     (vseg, hseg); (vseg', hseg); (vseg, hseg'); (vseg', hseg')]
  /\ Point.is_to_the_left_of (pt 5 2) (pt 5 8) = true
  /\ Point.is_above (pt 5 2) (pt 1 2) = false
  /\ Point.is_below (pt 5 2) (pt 1 2) = true.
Proof. split; [repeat constructor | repeat split]. Qed.

(** ** Turns *)

(** C6, as stated: a turn would leave the body one unit longer than
    before the move.  The turn north of the scenario returns a snake of
    the same total length. *)
Lemma turn_tick_does_not_lengthen :
  Snake.keeps_course scenario_east (Some Direction.north) = false
  /\ Snake.move scenario_east (Some Direction.north) = Snake.Returned scenario_north
  /\ Snake.total_length scenario_north = Snake.total_length scenario_east
  /\ ~ (exists self',
          Snake.move scenario_east (Some Direction.north) = Snake.Returned self'
          /\ Snake.total_length self' = Snake.total_length scenario_east + 1).
Proof.
  split; [reflexivity|]. split; [reflexivity|]. split; [reflexivity|].
  intros (self' & Hret & Htl).
  assert (E : Snake.Returned self' = Snake.Returned scenario_north)
    by (by rewrite <- Hret).
  injection E as ->. vm_compute in Htl. discriminate Htl.
Qed.

(** C6, amended. On a well-formed snake with coordinates in range (so
    that [length()] computes every length exactly and never overflows)
    every tick, a perpendicular turn included, keeps the total body
    length: the head step adds one unit (on a turn by prepending a point,
    on a straight tick by extending the head segment), and the tail
    shrink of the same tick removes one.  The body is one unit longer
    only between the two, which is the snake the collision check sees. *)
Theorem every_tick_keeps_total_length
    (self : Snake.t) (direction : option Direction.t) :
  Snake.well_formed self = true ->
  in_range self = true ->
  exists self1 last_seg,
    Snake.advance_head self direction = Some (self1, last_seg)
    /\ lengths_exact self1 = true
    /\ Snake.total_length self1 = Snake.total_length self + 1
    /\ length (Snake.points self1)
       = (if Snake.keeps_course self direction
          then length (Snake.points self)
          else S (length (Snake.points self)))
    /\ (Snake.move self direction = Snake.Exited self1
        \/ exists self',
             Snake.move self direction = Snake.Returned self'
             /\ lengths_exact self' = true
             /\ Snake.total_length self' = Snake.total_length self).
Proof.
  intros Hwf Hin.
  destruct (move_sound self direction Hwf) as (self1 & last_seg & Hadv & Hmove).
  destruct (advance_head_sound self direction Hwf) as (self1' & Hadv' & _ & _ & Hpl).
  assert (self1' = self1) by congruence. subst self1'.
  exists self1, last_seg. split; [done|].
  split; [by apply (in_range_advance_head self direction self1 last_seg)|].
  split; [done|]. split.
  - destruct (well_formed_inv self Hwf) as (p & q & l & Hp & _).
    destruct (Snake.keeps_course self direction) eqn:Hk.
    + rewrite (advance_head_straight _ _ _ _ _ Hp Hk) in Hadv.
      injection Hadv as <- _. by rewrite Hp.
    + destruct direction as [d|]; [|done].
      rewrite (advance_head_turn _ _ _ _ _ Hp Hk) in Hadv.
      injection Hadv as <- _. by rewrite Hp.
  - destruct Hmove as [Hex | (self' & Hret & _ & Htl & _)]; [by left | right].
    exists self'. split; [done|]. split; [|done].
    apply (in_range_move self direction); [done | by left].
Qed.

Lemma every_tick_keeps_total_length_witness :
  Snake.well_formed scenario_east = true
  /\ in_range scenario_east = true
  /\ Snake.total_length scenario_east = 10
  /\ Snake.total_length
       (Snake.mk [pt 9 21; pt 10 21; pt 10 11] Direction.north) = 11
  /\ exists self',
       Snake.move scenario_east (Some Direction.north) = Snake.Returned self'
       /\ Snake.total_length self' = 10.
Proof.
  split; [reflexivity|]. split; [reflexivity|].
  split; [reflexivity|]. split; [reflexivity|].
  destruct (every_tick_keeps_total_length scenario_east (Some Direction.north))
    as (self1 & last_seg & _ & _ & _ & _ & [Hex | (self' & Hret & _ & Htl)]);
    [reflexivity | reflexivity | discriminate Hex |].
  exists self'. split; [exact Hret | exact Htl].
Defined.

(** C7. Requesting the direction opposite to the current one never takes
    the turn branch of [move]: the call ends exactly as the call with no
    requested direction does, with the same points and direction. *)
Theorem opposite_request_is_no_request (self : Snake.t) (d : Direction.t) :
  Direction.is_opp d (Snake.direction self) = true ->
  Snake.keeps_course self (Some d) = true
  /\ Snake.move self (Some d) = Snake.move self None.
Proof.
  intros Ho.
  assert (Hk : Snake.keeps_course self (Some d) = true).
  { apply keeps_course_spec. right; right. by exists d. }
  split; [done|].
  unfold Snake.move, Snake.advance_head. by rewrite Hk.
Qed.

Lemma opposite_request_is_no_request_witness :
  Direction.is_opp Direction.west (Snake.direction scenario_start) = true
  /\ Snake.keeps_course scenario_start (Some Direction.west) = true
  /\ Snake.move scenario_start (Some Direction.west) = Snake.Returned scenario_east
  /\ Snake.move scenario_start None = Snake.Returned scenario_east.
Proof.
  assert (Ho : Direction.is_opp Direction.west (Snake.direction scenario_start) = true)
    by reflexivity.
  destruct (opposite_request_is_no_request scenario_start Direction.west Ho) as [Hk Hm].
  split; [exact Ho|]. split; [exact Hk|].
  split; [rewrite Hm|]; reflexivity.
Defined.

(** C8. When the requested direction is neither absent, nor the current
    direction, nor its opposite, the head step of [move] yields the old
    points with one point prepended, the old head moved one grid unit in
    the requested direction, and sets the direction to the requested one;
    this is the snake before the tail shrink of the tick, and the one a
    collision leaves.  The old head is not mutated: whenever the move
    returns, the new head is at position 0 and the old head, unchanged,
    at position 1.  With coordinates in range (so that [length()] does
    not overflow) the move does end in one of these two ways. *)
Theorem turn_prepends_new_head
    (self : Snake.t) (d : Direction.t) (p q : Point.t) (l : list Point.t) :
  Snake.points self = p :: q :: l ->
  d <> Snake.direction self ->
  Direction.is_opp d (Snake.direction self) = false ->
  let new_head := Point.move p d in
  let self1 := Snake.mk (new_head :: Snake.points self) d in
  (exists last_seg, Snake.advance_head self (Some d) = Some (self1, last_seg))
  /\ Z.abs (Point.y new_head - Point.y p) + Z.abs (Point.x new_head - Point.x p) = 1
  /\ (forall s, Snake.move self (Some d) = Snake.Exited s -> s = self1)
  /\ (forall self',
        Snake.move self (Some d) = Snake.Returned self' ->
        Snake.direction self' = d
        /\ Snake.points self' !! 0%nat = Some new_head
        /\ Snake.points self' !! 1%nat = Some p)
  /\ (in_range self = true ->
      Snake.move self (Some d) = Snake.Exited self1
      \/ exists self', Snake.move self (Some d) = Snake.Returned self').
Proof.
  intros Hp Hne Hopp new_head self1. subst new_head self1. rewrite Hp.
  assert (Hk : Snake.keeps_course self (Some d) = false).
  { simpl. rewrite Hopp, orb_false_r. by apply bool_decide_eq_false. }
  pose proof (advance_head_turn _ _ _ _ _ Hp Hk) as Hadv.
  split; [by eexists|]. split.
  { destruct p as [py px], d; simpl; lia. }
  unfold Snake.move. rewrite Hadv.
  rewrite (detect_collision_cons _ (Point.move p d) (p :: q :: l)) by done.
  destruct (existsb _ _).
  { split; [|split; [done | by left]]. intros s Hs. by injection Hs as <-. }
  destruct (shrink_tail_keeps_front (Point.move p d :: p :: q :: l) d)
    as (self' & Hsh & Hd & Hfront); [simpl; lia|].
  simpl length in Hsh, Hfront.
  replace (S (S (S (length l))) - 2)%nat with (S (length l)) in Hsh by lia.
  replace (S (S (S (length l))) - 1)%nat with (S (S (length l))) in Hsh by lia.
  rewrite Hsh. split; [done|]. split; [|right; by exists self'].
  intros s Hs. injection Hs as <-. split; [done|].
  split; rewrite Hfront by lia; reflexivity.
Qed.

Lemma turn_prepends_new_head_witness :
  (exists last_seg,
      Snake.advance_head scenario_east (Some Direction.north)
      = Some (Snake.mk [pt 9 21; pt 10 21; pt 10 11] Direction.north, last_seg))
  /\ Z.abs (9 - 10) + Z.abs (21 - 21) = 1
  /\ (forall s,
        Snake.move scenario_east (Some Direction.north) = Snake.Exited s ->
        s = Snake.mk [pt 9 21; pt 10 21; pt 10 11] Direction.north)
  /\ (forall self',
        Snake.move scenario_east (Some Direction.north) = Snake.Returned self' ->
        Snake.direction self' = Direction.north
        /\ Snake.points self' !! 0%nat = Some (pt 9 21)
        /\ Snake.points self' !! 1%nat = Some (pt 10 21))
  /\ (in_range scenario_east = true ->
      Snake.move scenario_east (Some Direction.north)
      = Snake.Exited (Snake.mk [pt 9 21; pt 10 21; pt 10 11] Direction.north)
      \/ exists self',
           Snake.move scenario_east (Some Direction.north) = Snake.Returned self').
Proof.
  apply (turn_prepends_new_head scenario_east Direction.north
           (pt 10 21) (pt 10 11) []);
    [reflexivity | discriminate | reflexivity].
Defined.

(** ** The structural invariant *)



(** Why the invariant speaks of every segment: a zero-length segment
    inside the body comes to the tail when the segment after it is
    pruned, and the tail step does not prune twice. *)
Remark zero_length_inner_segment_surfaces :
  Snake.move (Snake.mk [pt 0 5; pt 0 3; pt 0 3; pt 0 2] Direction.east) None
  = Snake.Returned (Snake.mk [pt 0 6; pt 0 3; pt 0 3] Direction.east).
Proof. reflexivity. Qed.

(** Likewise a two-point snake of length zero is left with one point, and
    the move after that fails on [points[1]]. *)
Remark zero_length_snake_loses_a_point :
  Snake.move (Snake.mk [pt 0 0; pt 0 0] Direction.east) None
  = Snake.Returned (Snake.mk [pt 0 1] Direction.east)
  /\ Snake.move (Snake.mk [pt 0 1] Direction.east) None = Snake.IndexError.
Proof. split; reflexivity. Qed.

(** ** Two-point snakes *)

(** C10. A snake of exactly two points has no segment besides the head
    segment, so [detect_collision] walks an empty sequence and returns
    without reporting a collision, wherever the head is. *)
Theorem two_points_never_collide (self : Snake.t) :
  length (Snake.points self) = 2%nat ->
  Snake.body_segments (Snake.points self) = []
  /\ Snake.detect_collision self = Snake.Returned self.
Proof.
  intros Hl.
  destruct (Snake.points self) as [|p [|q [|r l]]] eqn:Hp; try done.
  split; [reflexivity|].
  unfold Snake.detect_collision. by rewrite Hp.
Qed.

Lemma two_points_never_collide_witness :
  Snake.body_segments (Snake.points scenario_start) = []
  /\ Snake.detect_collision scenario_start = Snake.Returned scenario_start.
Proof. apply (two_points_never_collide scenario_start). reflexivity. Defined.


(** * Further properties of the code *)

(** ** Directions and points *)

(** X1. [is_opp] is symmetric and irreflexive, and pairs every direction
    with exactly one other direction. *)
Theorem is_opp_pairs_directions (a b : Direction.t) :
  Direction.is_opp a b = Direction.is_opp b a
  /\ Direction.is_opp a a = false
  /\ (exists c, Direction.is_opp a c = true)
  /\ (forall c, Direction.is_opp a b = true -> Direction.is_opp a c = true -> b = c).
Proof.
  split; [by destruct a, b|]. split; [by destruct a|]. split.
  - destruct a; [exists Direction.south | exists Direction.west
                 | exists Direction.north | exists Direction.east]; reflexivity.
  - intros c. by destruct a, b, c.
Qed.

(** X2. Two successive [Point.move]s bring a point back to where it was
    exactly when the two directions are opposite; in any case their
    order does not matter. *)
Theorem point_move_back_and_forth (p : Point.t) (d e : Direction.t) :
  (Point.move (Point.move p d) e = p <-> Direction.is_opp d e = true)
  /\ Point.move (Point.move p d) e = Point.move (Point.move p e) d.
Proof.
  destruct p as [py px]. split.
  - destruct d, e; simpl; split; try done; try (intros [=]; lia);
      intros _; f_equal; lia.
  - destruct d, e; simpl; f_equal; lia.
Qed.

(** X3. [distance_from] is symmetric, is zero exactly between equal
    points, and a point is at distance 1 from where [move] takes it. *)
Theorem distance_from_metric (p q : Point.t) (d : Direction.t) :
  Point.distance_from p q = Point.distance_from q p
  /\ (Point.distance_from p q = 0 <-> p = q)
  /\ Point.distance_from p (Point.move p d) = 1.
Proof.
  split; [|split].
  - unfold Point.distance_from. f_equal. lia.
  - apply distance_from_zero.
  - destruct (step_segment p d) as [_ H].
    unfold LineSegment.length in H. simpl in H.
    unfold Point.distance_from in *. rewrite <- H. f_equal. lia.
Qed.

(** ** Growing and shrinking a segment *)

Section Heading.

Implicit Types (p q : Point.t) (d : Direction.t) (seg : LineSegment.t).

Lemma faces_sound d p q :
  faces d p q = true ->
  Snake.axis_aligned (LineSegment.mk p q) = true /\ p <> q.
Proof.
  destruct p as [py px], q as [qy qx].
  unfold Snake.axis_aligned, LineSegment.is_horizontal, LineSegment.is_vertical,
    Point.has_same_y, Point.has_same_x.
  destruct d; simpl; intros [H1%bool_decide_eq_true H2%bool_decide_eq_true]%andb_true_iff;
    (split; [repeat case_bool_decide; simpl; try done; lia | intros [=]; lia]).
Qed.

Lemma faces_increment d p q :
  faces d p q = true ->
  LineSegment.increment (LineSegment.mk p q) = LineSegment.mk (Point.move p d) q.
Proof.
  destruct p as [py px], q as [qy qx].
  unfold LineSegment.increment, LineSegment.is_horizontal, LineSegment.is_vertical,
    Point.has_same_y, Point.has_same_x.
  destruct d; simpl; intros [H1%bool_decide_eq_true H2%bool_decide_eq_true]%andb_true_iff;
    repeat case_bool_decide; simpl; try done; lia.
Qed.

Lemma faces_decrement d p q :
  faces d p q = true ->
  LineSegment.decrement (LineSegment.mk p q) = LineSegment.mk p (Point.move q d).
Proof.
  destruct p as [py px], q as [qy qx].
  unfold LineSegment.decrement, LineSegment.is_horizontal, LineSegment.is_vertical,
    Point.has_same_y, Point.has_same_x.
  destruct d; simpl; intros [H1%bool_decide_eq_true H2%bool_decide_eq_true]%andb_true_iff;
    repeat case_bool_decide; simpl; try done; lia.
Qed.

Lemma faces_move_head d p q :
  faces d p q = true -> faces d (Point.move p d) q = true.
Proof.
  destruct p as [py px], q as [qy qx].
  destruct d; simpl; intros [H1%bool_decide_eq_true H2%bool_decide_eq_true]%andb_true_iff;
    apply andb_true_iff; split; apply bool_decide_eq_true; lia.
Qed.

Lemma faces_move_both d p q :
  faces d p q = true -> faces d (Point.move p d) (Point.move q d) = true.
Proof.
  destruct p as [py px], q as [qy qx].
  destruct d; simpl; intros [H1%bool_decide_eq_true H2%bool_decide_eq_true]%andb_true_iff;
    apply andb_true_iff; split; apply bool_decide_eq_true; lia.
Qed.


End Heading.

(** X4. On a segment whose head is straight ahead of its tail in
    direction [d], [increment] moves the head one unit in direction [d]
    and [decrement] moves the tail one unit in direction [d]; one after
    the other they shift the whole segment by one unit and keep its
    length. *)
Theorem increment_decrement_shift (seg : LineSegment.t) (d : Direction.t) :
  faces d (LineSegment.head seg) (LineSegment.tail seg) = true ->
  LineSegment.increment seg
  = LineSegment.mk (Point.move (LineSegment.head seg) d) (LineSegment.tail seg)
  /\ LineSegment.decrement seg
     = LineSegment.mk (LineSegment.head seg) (Point.move (LineSegment.tail seg) d)
  /\ LineSegment.decrement (LineSegment.increment seg)
     = LineSegment.mk (Point.move (LineSegment.head seg) d)
         (Point.move (LineSegment.tail seg) d)
  /\ LineSegment.length (LineSegment.decrement (LineSegment.increment seg))
     = LineSegment.length seg.
Proof.
  destruct seg as [p q]. simpl. intros Hf.
  pose proof (faces_increment _ _ _ Hf) as Hi.
  pose proof (faces_decrement _ _ _ Hf) as Hd.
  pose proof (faces_decrement _ _ _ (faces_move_head _ _ _ Hf)) as Hid.
  rewrite Hi, Hid. repeat split; try done.
  destruct (faces_sound _ _ _ Hf) as [Ha Hne].
  assert (Hl : LineSegment.length (LineSegment.mk p q) <> 0).
  { intros E. by apply distance_from_zero in E. }
  pose proof (increment_length _ Ha Hl) as Hil.
  pose proof (increment_axis_aligned _ Ha) as Hia.
  rewrite Hi in Hil, Hia.
  assert (Hl' : LineSegment.length (LineSegment.mk (Point.move p d) q) <> 0).
  { pose proof (length_nonneg (LineSegment.mk p q)). lia. }
  pose proof (decrement_length _ Hia Hl') as Hdl.
  rewrite Hid in Hdl. lia.
Qed.

Lemma increment_decrement_shift_witness :
  LineSegment.increment (LineSegment.mk (pt 10 20) (pt 10 10))
  = LineSegment.mk (pt 10 21) (pt 10 10)
  /\ LineSegment.decrement (LineSegment.mk (pt 10 20) (pt 10 10))
     = LineSegment.mk (pt 10 20) (pt 10 11)
  /\ LineSegment.decrement (LineSegment.increment (LineSegment.mk (pt 10 20) (pt 10 10)))
     = LineSegment.mk (pt 10 21) (pt 10 11)
  /\ LineSegment.length
       (LineSegment.decrement (LineSegment.increment (LineSegment.mk (pt 10 20) (pt 10 10))))
     = LineSegment.length (LineSegment.mk (pt 10 20) (pt 10 10)).
Proof.
  apply (increment_decrement_shift (LineSegment.mk (pt 10 20) (pt 10 10)) Direction.east).
  reflexivity.
Defined.

(** X5. [increment] never moves the tail and [decrement] never moves the
    head; on a segment that is neither horizontal nor vertical both
    leave the segment as it is. *)
Theorem increment_decrement_untouched (seg : LineSegment.t) :
  LineSegment.tail (LineSegment.increment seg) = LineSegment.tail seg
  /\ LineSegment.head (LineSegment.decrement seg) = LineSegment.head seg
  /\ (Snake.axis_aligned seg = false ->
      LineSegment.increment seg = seg /\ LineSegment.decrement seg = seg).
Proof.
  split; [apply increment_tail|]. split; [apply decrement_head|].
  unfold Snake.axis_aligned, LineSegment.increment, LineSegment.decrement.
  intros [-> ->]%orb_false_iff. done.
Qed.

Lemma increment_decrement_untouched_witness :
  LineSegment.increment (LineSegment.mk (pt 0 0) (pt 3 4)) = LineSegment.mk (pt 0 0) (pt 3 4)
  /\ LineSegment.decrement (LineSegment.mk (pt 0 0) (pt 3 4)) = LineSegment.mk (pt 0 0) (pt 3 4).
Proof.
  apply (increment_decrement_untouched (LineSegment.mk (pt 0 0) (pt 3 4))).
  reflexivity.
Defined.

(** ** Points on a segment, shared endpoints *)

(** Turns an equation between boolean tests into the equivalence of the
    facts they decide. *)
Ltac bool_to_prop :=
  apply eq_true_iff_eq;
  rewrite ?andb_true_iff, ?orb_true_iff, ?bool_decide_eq_true.

Lemma some_true_iff (b : bool) : Some b = Some true <-> b = true.
Proof. split; [by intros [= ->] | by intros ->]. Qed.

(** X6. [lies_on] does not depend on which end of the segment is the
    head; it returns [None] exactly on segments that are neither
    horizontal nor vertical; on the others it is true at both ends, and
    true exactly at the points between the two ends. *)
Theorem lies_on_segment (seg : LineSegment.t) (p : Point.t) :
  LineSegment.lies_on (LineSegment.mk (LineSegment.tail seg) (LineSegment.head seg)) p
  = LineSegment.lies_on seg p
  /\ (LineSegment.lies_on seg p = None <-> Snake.axis_aligned seg = false)
  /\ (Snake.axis_aligned seg = true ->
      LineSegment.lies_on seg (LineSegment.head seg) = Some true
      /\ LineSegment.lies_on seg (LineSegment.tail seg) = Some true
      /\ (LineSegment.lies_on seg p = Some true
          <-> within (LineSegment.head seg) (LineSegment.tail seg) p)).
Proof.
  destruct seg as [[hy hx] [ty tx]], p as [py px].
  unfold LineSegment.lies_on, Snake.axis_aligned, within,
    LineSegment.is_horizontal, LineSegment.is_vertical,
    Point.has_same_y, Point.has_same_x. simpl.
  split; [|split].
  - repeat case_bool_decide; try done; try lia; f_equal; bool_to_prop; lia.
  - repeat case_bool_decide; simpl; split; try done; lia.
  - intros Ha.
    destruct (bool_decide (hy = ty)) eqn:Ey;
      [apply bool_decide_eq_true in Ey
      | destruct (bool_decide (hx = tx)) eqn:Ex;
        [apply bool_decide_eq_true in Ex | done]];
      rewrite !some_true_iff, !andb_true_iff, !bool_decide_eq_true; lia.
Qed.

Lemma lies_on_segment_witness :
  LineSegment.lies_on (LineSegment.mk (pt 0 3) (pt 0 0)) (pt 0 3) = Some true
  /\ LineSegment.lies_on (LineSegment.mk (pt 0 3) (pt 0 0)) (pt 0 0) = Some true
  /\ (LineSegment.lies_on (LineSegment.mk (pt 0 3) (pt 0 0)) (pt 0 2) = Some true
      <-> within (pt 0 3) (pt 0 0) (pt 0 2)).
Proof.
  apply (lies_on_segment (LineSegment.mk (pt 0 3) (pt 0 0)) (pt 0 2)).
  reflexivity.
Defined.

(** X7. [intersection_point] finds nothing exactly when no end of the
    first segment equals an end of the second; what it finds is an end
    of both, the head of the first segment whenever that is shared. *)
Theorem intersection_point_is_shared_end (a b : LineSegment.t) :
  (LineSegment.intersection_point a b = None
   <-> LineSegment.head a <> LineSegment.head b
       /\ LineSegment.head a <> LineSegment.tail b
       /\ LineSegment.tail a <> LineSegment.head b
       /\ LineSegment.tail a <> LineSegment.tail b)
  /\ (forall p, LineSegment.intersection_point a b = Some p ->
        (p = LineSegment.head a \/ p = LineSegment.tail a)
        /\ (p = LineSegment.head b \/ p = LineSegment.tail b))
  /\ (LineSegment.head a = LineSegment.head b
      \/ LineSegment.head a = LineSegment.tail b ->
      LineSegment.intersection_point a b = Some (LineSegment.head a)).
Proof.
  unfold LineSegment.intersection_point.
  split; [|split].
  - repeat case_bool_decide; simpl; split; try done; intuition congruence.
  - intros p. repeat case_bool_decide; simpl; try done; intros [= <-];
      intuition congruence.
  - repeat case_bool_decide; simpl; try done; intuition congruence.
Qed.

Lemma intersection_point_is_shared_end_witness :
  LineSegment.intersection_point hseg vseg' = Some (LineSegment.head hseg).
Proof.
  apply (intersection_point_is_shared_end hseg vseg'). right. reflexivity.
Defined.

(** ** Corner glyphs in general *)

Section Join.

Implicit Types (a b h v : LineSegment.t) (c : Point.t).

(** What [join] comes to once the two roles are given out: a segment
    that is not vertical but horizontal is [hline], a vertical one is
    [vline]. *)
Lemma join_roles h v :
  LineSegment.is_vertical h = false ->
  LineSegment.is_horizontal h = true ->
  LineSegment.is_vertical v = true ->
  LineSegment.join h (Some v)
  = match LineSegment.intersection_point h v with
    | Some ipoint =>
        match LineSegment.join_char ipoint h v with
        | Some ch => Some (addch (Point.y ipoint) (Point.x ipoint) ch)
        | None => None
        end
    | None => None
    end.
Proof.
  intros Hv Hh Hv'. unfold LineSegment.join. rewrite Hv, Hh, Hv'.
  rewrite bool_decide_eq_true_2; [done|]. intros ->. congruence.
Qed.

Lemma join_comm a b : LineSegment.join a (Some b) = LineSegment.join b (Some a).
Proof.
  unfold LineSegment.join.
  destruct (LineSegment.is_vertical a) eqn:Hva, (LineSegment.is_vertical b) eqn:Hvb;
    try done;
    destruct (LineSegment.is_horizontal a) eqn:Hha, (LineSegment.is_horizontal b) eqn:Hhb;
    done.
Qed.

Lemma join_same_orientation a b :
  LineSegment.is_vertical a = LineSegment.is_vertical b ->
  LineSegment.join a (Some b) = None.
Proof.
  intros Hv. unfold LineSegment.join. rewrite Hv.
  destruct (LineSegment.is_vertical b); [done|].
  by destruct (LineSegment.is_horizontal a), (LineSegment.is_horizontal b).
Qed.

(** A horizontal segment running [dx] columns from [c] and a vertical
    one running [dy] rows from [c]. *)
Lemma join_corner c (dy dx : Z) h v :
  dx <> 0 -> dy <> 0 ->
  (h = LineSegment.mk c (Point.mk (Point.y c) (Point.x c + dx))
   \/ h = LineSegment.mk (Point.mk (Point.y c) (Point.x c + dx)) c) ->
  (v = LineSegment.mk c (Point.mk (Point.y c + dy) (Point.x c))
   \/ v = LineSegment.mk (Point.mk (Point.y c + dy) (Point.x c)) c) ->
  LineSegment.join h (Some v)
  = Some (addch (Point.y c) (Point.x c) (corner dy dx)).
Proof.
  intros Hdx Hdy Hh Hv. destruct c as [cy cx]. simpl in Hh, Hv.
  simpl Point.y. simpl Point.x.
  assert (Hip : LineSegment.intersection_point h v = Some (Point.mk cy cx)).
  { unfold LineSegment.intersection_point.
    destruct Hh as [-> | ->], Hv as [-> | ->]; simpl;
      repeat case_bool_decide; simpl; try done;
      repeat match goal with
             | H : Point.mk _ _ = Point.mk _ _ |- _ => inversion H; clear H
             end; lia. }
  rewrite join_roles, Hip.
  - unfold LineSegment.join_char, corner, Point.is_to_the_left_of,
      Point.is_to_the_right_of, Point.is_above, Point.is_below.
    destruct Hh as [-> | ->], Hv as [-> | ->]; simpl;
      repeat case_bool_decide; simpl; try done; lia.
  - unfold LineSegment.is_vertical, Point.has_same_x.
    apply bool_decide_eq_false. destruct Hh as [-> | ->]; simpl; lia.
  - unfold LineSegment.is_horizontal, Point.has_same_y.
    apply bool_decide_eq_true. by destruct Hh as [-> | ->].
  - unfold LineSegment.is_vertical, Point.has_same_x.
    apply bool_decide_eq_true. by destruct Hv as [-> | ->].
Qed.

(** Where [join] writes, when it does. *)
Lemma join_location a b (w : AddCh) :
  LineSegment.join a (Some b) = Some w ->
  LineSegment.is_vertical a <> LineSegment.is_vertical b
  /\ a <> b
  /\ (Point.mk (at_y w) (at_x w) = LineSegment.head a
      \/ Point.mk (at_y w) (at_x w) = LineSegment.tail a)
  /\ (Point.mk (at_y w) (at_x w) = LineSegment.head b
      \/ Point.mk (at_y w) (at_x w) = LineSegment.tail b).
Proof.
  intros Hj.
  assert (Hv : LineSegment.is_vertical a <> LineSegment.is_vertical b).
  { intros E. by rewrite (join_same_orientation _ _ E) in Hj. }
  split; [done|]. split; [by intros ->|].
  assert (Hgen : forall h v,
             LineSegment.is_vertical h = false ->
             LineSegment.is_vertical v = true ->
             LineSegment.join h (Some v) = Some w ->
             (Point.mk (at_y w) (at_x w) = LineSegment.head h
              \/ Point.mk (at_y w) (at_x w) = LineSegment.tail h)
             /\ (Point.mk (at_y w) (at_x w) = LineSegment.head v
                 \/ Point.mk (at_y w) (at_x w) = LineSegment.tail v)).
  { intros h v Hvh Hvv Hjoin.
    destruct (LineSegment.is_horizontal h) eqn:Hhh.
    - rewrite join_roles in Hjoin by done.
      destruct (LineSegment.intersection_point h v) as [[iy ix]|] eqn:Hip; [|done].
      destruct (LineSegment.join_char _ h v); [|done].
      injection Hjoin as <-. simpl.
      revert Hip. unfold LineSegment.intersection_point.
      repeat case_bool_decide; simpl; try done; intros [= E]; intuition congruence.
    - unfold LineSegment.join in Hjoin. by rewrite Hvh, Hhh, Hvv in Hjoin. }
  destruct (LineSegment.is_vertical a) eqn:Hva, (LineSegment.is_vertical b) eqn:Hvb;
    try done.
  - rewrite join_comm in Hj. destruct (Hgen b a Hvb Hva Hj). done.
  - by apply Hgen.
Qed.

End Join.

(** X8. [join] gives the same result whichever of the two segments it is
    called on, and writes nothing when both segments are vertical or
    neither is. *)
Theorem join_is_symmetric (a b : LineSegment.t) :
  LineSegment.join a (Some b) = LineSegment.join b (Some a)
  /\ (LineSegment.is_vertical a = LineSegment.is_vertical b ->
      LineSegment.join a (Some b) = None).
Proof. split; [apply join_comm | apply join_same_orientation]. Qed.

Lemma join_is_symmetric_witness :
  LineSegment.join hseg (Some hseg') = None.
Proof. apply (join_is_symmetric hseg hseg'). reflexivity. Defined.

(** X9. When [join] writes a glyph, exactly one of the two segments is
    vertical, the segments differ, and the glyph is written at a point
    that is an end of both. *)
Theorem join_writes_at_shared_end (a b : LineSegment.t) (w : AddCh) :
  LineSegment.join a (Some b) = Some w ->
  LineSegment.is_vertical a <> LineSegment.is_vertical b
  /\ a <> b
  /\ (Point.mk (at_y w) (at_x w) = LineSegment.head a
      \/ Point.mk (at_y w) (at_x w) = LineSegment.tail a)
  /\ (Point.mk (at_y w) (at_x w) = LineSegment.head b
      \/ Point.mk (at_y w) (at_x w) = LineSegment.tail b).
Proof. apply join_location. Qed.

Lemma join_writes_at_shared_end_witness :
  LineSegment.is_vertical hseg <> LineSegment.is_vertical vseg
  /\ hseg <> vseg
  /\ (pt 5 2 = LineSegment.head hseg \/ pt 5 2 = LineSegment.tail hseg)
  /\ (pt 5 2 = LineSegment.head vseg \/ pt 5 2 = LineSegment.tail vseg).
Proof.
  apply (join_writes_at_shared_end hseg vseg (addch 5 2 ACS_LLCORNER)).
  reflexivity.
Defined.

(** X10. For a horizontal segment running [dx <> 0] columns from a point
    and a vertical segment running [dy <> 0] rows from the same point,
    the ends of each in either order, [join] writes one glyph at that
    point: the upper-left corner when the segments run right and down,
    lower-left for right and up, upper-right for left and down,
    lower-right for left and up. *)
Theorem join_draws_the_right_corner
    (c : Point.t) (dy dx : Z) (h v : LineSegment.t) :
  dx <> 0 -> dy <> 0 ->
  (h = LineSegment.mk c (Point.mk (Point.y c) (Point.x c + dx))
   \/ h = LineSegment.mk (Point.mk (Point.y c) (Point.x c + dx)) c) ->
  (v = LineSegment.mk c (Point.mk (Point.y c + dy) (Point.x c))
   \/ v = LineSegment.mk (Point.mk (Point.y c + dy) (Point.x c)) c) ->
  LineSegment.join h (Some v) = Some (addch (Point.y c) (Point.x c) (corner dy dx))
  /\ LineSegment.join v (Some h) = Some (addch (Point.y c) (Point.x c) (corner dy dx))
  /\ corner dy dx
     = (if bool_decide (0 < dx)
        then if bool_decide (0 < dy) then ACS_ULCORNER else ACS_LLCORNER
        else if bool_decide (0 < dy) then ACS_URCORNER else ACS_LRCORNER).
Proof.
  intros Hdx Hdy Hh Hv.
  pose proof (join_corner c dy dx h v Hdx Hdy Hh Hv) as Hj.
  split; [done|]. split; [by rewrite join_comm | done].
Qed.

Lemma join_draws_the_right_corner_witness :
  LineSegment.join (LineSegment.mk (pt 10 21) (pt 10 12))
    (Some (LineSegment.mk (pt 9 21) (pt 10 21)))
  = Some (addch 10 21 ACS_LRCORNER).
Proof.
  apply (join_draws_the_right_corner (pt 10 21) (-1) (-9)
           (LineSegment.mk (pt 10 21) (pt 10 12))
           (LineSegment.mk (pt 9 21) (pt 10 21)));
    [lia | lia | by left | by right].
Defined.

(** ** Drawing a segment *)




(** ** Drawing the snake *)

Section Drawing.

Implicit Types (a b c z : Point.t) (l : list Point.t) (prev : option LineSegment.t).











End Drawing.



(** ** The snake in play *)

Section InPlay.

Implicit Types (self : Snake.t) (p q a b h n : Point.t) (l pre : list Point.t).
Implicit Types (d e : Direction.t) (direction : option Direction.t).



Lemma faces_sound_pair d p q : faces d p q = true -> Snake.sound_pair (p, q) = true.
Proof.
  intros [Ha Hne]%faces_sound. apply sound_pair_intro; [done|].
  intros E. by apply distance_from_zero in E.
Qed.










End InPlay.





(** ** Moves on any snake of at least two points *)

Section AnySnake.

Implicit Types (self : Snake.t) (p q : Point.t) (l : list Point.t).
Implicit Types (d : Direction.t) (direction : option Direction.t).

Lemma shrink_tail_length l d self' :
  (2 <= length l)%nat ->
  Snake.shrink_tail (Snake.mk l d) (Snake.refer (length l - 2) (length l - 1))
  = Snake.Returned self' ->
  length (Snake.points self') = length l
  \/ S (length (Snake.points self')) = length l.
Proof.
  intros Hlen.
  destruct (lookup_lt_is_Some_2 l (length l - 2)%nat) as [a Ha]; [lia|].
  destruct (lookup_lt_is_Some_2 l (length l - 1)%nat) as [b Hb]; [lia|].
  assert (Hread : Snake.read l (Snake.refer (length l - 2) (length l - 1))
                  = Some (LineSegment.mk a b)).
  { unfold Snake.read. simpl. by rewrite Ha, Hb. }
  rewrite (shrink_tail_prune _ _ _ Hlen Hread). intros [= <-]. simpl.
  case_bool_decide.
  - right. rewrite length_take. lia.
  - left. by rewrite length_insert.
Qed.

(** Every move of a snake of at least two points ends the process or
    returns; the snake it ends with heads in [course_after], and has
    every old point but the head and the last where it was, moved up by
    one place on a turn. *)
Lemma move_outcome self direction p q l :
  Snake.points self = p :: q :: l ->
  exists s,
    (Snake.move self direction = Snake.Exited s
     \/ (Snake.move self direction = Snake.Returned s
         /\ (length (Snake.points s)
             = (length (Snake.points self) + shift_of self direction)%nat
             \/ S (length (Snake.points s))
                = (length (Snake.points self) + shift_of self direction)%nat)))
    /\ Snake.direction s = course_after self direction
    /\ (forall i : nat,
          (1 <= i + shift_of self direction)%nat ->
          (i + 1 < length (Snake.points self))%nat ->
          Snake.points s !! (i + shift_of self direction)%nat
          = Snake.points self !! i).
Proof.
  intros Hp. unfold shift_of, Snake.move.
  assert (Hstep : exists h rest,
             Snake.advance_head self direction
             = Some (Snake.mk (h :: rest) (course_after self direction),
                     Snake.refer (length (h :: rest) - 2) (length (h :: rest) - 1))
             /\ (2 <= length (h :: rest))%nat
             /\ length (h :: rest)
                = (length (Snake.points self)
                   + (if Snake.keeps_course self direction then 0 else 1))%nat
             /\ forall i : nat,
                  (1 <= i + (if Snake.keeps_course self direction then 0 else 1))%nat ->
                  (h :: rest) !! (i + (if Snake.keeps_course self direction
                                       then 0 else 1))%nat
                  = Snake.points self !! i).
  { destruct (Snake.keeps_course self direction) eqn:Hk.
    - exists (LineSegment.head (LineSegment.increment (LineSegment.mk p q))), (q :: l).
      rewrite (advance_head_straight _ _ _ _ _ Hp Hk), Hp.
      assert (Hca : course_after self direction = Snake.direction self).
      { unfold course_after. destruct direction; by rewrite ?Hk. }
      rewrite Hca. simpl length.
      split; [do 3 f_equal; lia|]. split; [lia|]. split; [lia|].
      intros i Hi. rewrite Nat.add_0_r. destruct i; [lia | done].
    - destruct direction as [d|]; [|done].
      exists (Point.move p d), (p :: q :: l).
      rewrite (advance_head_turn _ _ _ _ _ Hp Hk), Hp.
      assert (Hca : course_after self (Some d) = d).
      { unfold course_after. by rewrite Hk. }
      rewrite Hca. simpl length.
      split; [do 3 f_equal; lia|]. split; [lia|]. split; [lia|].
      intros i _. by rewrite Nat.add_1_r. }
  destruct Hstep as (h & rest & -> & Hlen & Hsize & Hold).
  rewrite (detect_collision_cons _ h rest) by done.
  destruct (existsb _ _).
  - eexists. split; [by left|]. split; [done|]. simpl.
    intros i Hi _. by apply Hold.
  - destruct (shrink_tail_keeps_front (h :: rest) (course_after self direction) Hlen)
      as (s & Hsh & Hd & Hfront).
    exists s. rewrite Hsh. split.
    { right. split; [done|]. rewrite <- Hsize.
      by apply (shrink_tail_length _ _ _ Hlen Hsh). }
    split; [done|]. intros i Hi Hin.
    rewrite Hfront by lia. by apply Hold.
Qed.

Lemma move_short self direction :
  (length (Snake.points self) < 2)%nat ->
  Snake.move self direction = Snake.IndexError.
Proof.
  intros Hl. unfold Snake.move. by rewrite advance_head_short.
Qed.

End AnySnake.

(** X15. On a snake of at least two points the snake a move ends with
    (returned, or left at a collision) heads in the requested direction
    on a turn and in the old one otherwise; so a request gives the
    outcome of no request exactly when it is the current direction or
    its opposite. *)
Theorem request_matters_only_on_a_turn
    (self : Snake.t) (d : Direction.t) (p q : Point.t) (l : list Point.t) :
  Snake.points self = p :: q :: l ->
  (forall direction s,
      Snake.move self direction = Snake.Exited s
      \/ Snake.move self direction = Snake.Returned s ->
      Snake.direction s = course_after self direction)
  /\ (Snake.move self (Some d) = Snake.move self None
      <-> d = Snake.direction self \/ Direction.is_opp d (Snake.direction self) = true).
Proof.
  intros Hp.
  assert (Hdir : forall direction s,
             Snake.move self direction = Snake.Exited s
             \/ Snake.move self direction = Snake.Returned s ->
             Snake.direction s = course_after self direction).
  { intros direction s Hm.
    destruct (move_outcome self direction p q l Hp) as (s' & Hm' & Hd & _).
    destruct Hm as [Hm | Hm], Hm' as [Hm' | [Hm' _]]; congruence. }
  split; [done|]. split.
  - intros Heq.
    destruct (move_outcome self (Some d) p q l Hp) as (s & Hm & Hd & _).
    assert (Hd0 : Snake.direction s = course_after self None).
    { apply Hdir. rewrite <- Heq. destruct Hm as [Hm | [Hm _]]; auto. }
    rewrite Hd in Hd0. unfold course_after in Hd0. simpl in Hd0.
    destruct (bool_decide (d = Snake.direction self)) eqn:E.
    + left. by apply bool_decide_eq_true in E.
    + simpl in Hd0. destruct (Direction.is_opp d (Snake.direction self)); [by right|].
      by left.
  - intros Hk.
    assert (Hk' : Snake.keeps_course self (Some d) = true).
    { simpl. apply orb_true_iff. destruct Hk as [->|Hk]; [left | by right].
      by apply bool_decide_eq_true. }
    unfold Snake.move, Snake.advance_head. by rewrite Hk'.
Qed.

Lemma request_matters_only_on_a_turn_witness :
  Snake.move scenario_start (Some Direction.south) <> Snake.move scenario_start None.
Proof.
  intros Heq.
  destruct (request_matters_only_on_a_turn scenario_start Direction.south
              (pt 10 20) (pt 10 10) [] eq_refl) as [_ Hiff].
  apply Hiff in Heq. destruct Heq as [Heq | Heq]; discriminate Heq.
Defined.

(** X16. [move] fails on a subscript exactly on a snake of fewer than two
    points, and [detect_collision] exactly on a snake without points;
    [draw] never fails and makes no call on a snake of fewer than two
    points. *)
Theorem short_snakes (self : Snake.t) (direction : option Direction.t) :
  (Snake.move self direction = Snake.IndexError
   <-> (length (Snake.points self) < 2)%nat)
  /\ (Snake.detect_collision self = Snake.IndexError <-> Snake.points self = [])
  /\ ((length (Snake.points self) < 2)%nat -> Snake.draw self = []).
Proof.
  split; [|split].
  - split; [|apply move_short].
    intros Hm. destruct (Snake.points self) as [|p [|q l]] eqn:Hp; simpl; try lia.
    destruct (move_outcome self direction p q l Hp) as (s & [Hs | [Hs _]] & _);
      congruence.
  - unfold Snake.detect_collision.
    destruct (Snake.points self) as [|p l]; [done|]. simpl.
    by destruct (existsb _ _).
  - unfold Snake.draw. destruct (Snake.points self) as [|p [|q l]]; simpl; try done; lia.
Qed.

Lemma short_snakes_witness :
  Snake.move (Snake.mk [pt 0 1] Direction.east) None = Snake.IndexError
  /\ Snake.draw (Snake.mk [pt 0 1] Direction.east) = [].
Proof.
  split.
  - apply (short_snakes (Snake.mk [pt 0 1] Direction.east) None). simpl. lia.
  - apply (short_snakes (Snake.mk [pt 0 1] Direction.east) None). simpl. lia.
Defined.

(** X17. A move that returns changes no point but the head and the last
    one: every other point of the old snake is still there, at its old
    place after a straight move and one place further after a turn
    (where the old head too is kept).  The snake has as many points as
    before or one fewer after a straight move, and one more or as many
    after a turn. *)
Theorem move_touches_only_the_ends
    (self : Snake.t) (direction : option Direction.t)
    (p q : Point.t) (l : list Point.t) (self' : Snake.t) :
  Snake.points self = p :: q :: l ->
  Snake.move self direction = Snake.Returned self' ->
  (length (Snake.points self')
   = (length (Snake.points self) + shift_of self direction)%nat
   \/ S (length (Snake.points self'))
      = (length (Snake.points self) + shift_of self direction)%nat)
  /\ (forall i : nat,
        (1 <= i + shift_of self direction)%nat ->
        (i + 1 < length (Snake.points self))%nat ->
        Snake.points self' !! (i + shift_of self direction)%nat
        = Snake.points self !! i).
Proof.
  intros Hp Hm.
  destruct (move_outcome self direction p q l Hp) as (s & [Hs | [Hs Hlen]] & _ & Hold);
    [congruence|].
  assert (s = self') by congruence. subst s. by split.
Qed.

Lemma move_touches_only_the_ends_witness :
  (length (Snake.points scenario_north)
   = (length (Snake.points scenario_east)
      + shift_of scenario_east (Some Direction.north))%nat
   \/ S (length (Snake.points scenario_north))
      = (length (Snake.points scenario_east)
         + shift_of scenario_east (Some Direction.north))%nat)
  /\ (forall i : nat,
        (1 <= i + shift_of scenario_east (Some Direction.north))%nat ->
        (i + 1 < length (Snake.points scenario_east))%nat ->
        Snake.points scenario_north !! (i + shift_of scenario_east (Some Direction.north))%nat
        = Snake.points scenario_east !! i).
Proof.
  apply (move_touches_only_the_ends scenario_east (Some Direction.north)
           (pt 10 21) (pt 10 11) [] scenario_north); reflexivity.
Defined.

(** ** Short snakes cannot collide *)

Section FewPoints.

Implicit Types (a b c d h : Point.t) (l : list Point.t).






End FewPoints.



(** ** Relative position of points *)

(** X19. The four position tests are not strict: of two points each is
    left of or right of the other, and both at once exactly when
    [has_same_x] holds; likewise above, below and [has_same_y].  Each
    test read from the other point is the opposite test. *)
Theorem position_tests_are_not_strict (p q : Point.t) :
  (Point.is_to_the_left_of p q || Point.is_to_the_right_of p q = true)
  /\ Point.is_to_the_left_of p q && Point.is_to_the_right_of p q = Point.has_same_x p q
  /\ (Point.is_above p q || Point.is_below p q = true)
  /\ Point.is_above p q && Point.is_below p q = Point.has_same_y p q
  /\ Point.is_to_the_left_of p q = Point.is_to_the_right_of q p
  /\ Point.is_above p q = Point.is_below q p.
Proof.
  unfold Point.is_to_the_left_of, Point.is_to_the_right_of, Point.is_above,
    Point.is_below, Point.has_same_x, Point.has_same_y.
  repeat split; repeat case_bool_decide; simpl; try done; lia.
Qed.

(** ** Leaving the frame loop *)

Lemma frame_loop_unfold (snk : Snake.t) (ch : option Key) (getch : list Key) :
  frame_loop snk ch getch
  = if bool_decide (ch = Some ESC) then Snake.Returned snk
    else
      match Snake.move snk (key_direction ch) with
      | Snake.Returned snk =>
          match getch with
          | [] => Snake.Returned snk
          | ch :: getch => frame_loop snk (Some ch) getch
          end
      | halted => halted
      end.
Proof. by destruct getch. Qed.

Lemma frame_loop_esc (snk : Snake.t) (getch : list Key) :
  frame_loop snk (Some ESC) getch = Snake.Returned snk.
Proof. by destruct getch. Qed.

(** X20. The frame loop stops at the first ESC it reads: what [getch]
    would return after it makes no difference, and an ESC read before
    any move leaves the snake as it is. *)
Theorem frame_loop_stops_at_esc
    (snk : Snake.t) (ch : option Key) (before after : list Key) :
  frame_loop snk ch (before ++ ESC :: after) = frame_loop snk ch before
  /\ frame_loop snk (Some ESC) before = Snake.Returned snk.
Proof.
  split; [|apply frame_loop_esc].
  revert snk ch. induction before as [|c before IH]; intros snk ch.
  - rewrite (frame_loop_unfold snk ch ([] ++ ESC :: after)),
      (frame_loop_unfold snk ch []).
    case_bool_decide; [done|].
    destruct (Snake.move snk (key_direction ch)); try done.
    apply frame_loop_esc.
  - rewrite (frame_loop_unfold snk ch ((c :: before) ++ ESC :: after)),
      (frame_loop_unfold snk ch (c :: before)).
    case_bool_decide; [done|].
    destruct (Snake.move snk (key_direction ch)); try done. apply IH.
Qed.
